(** * The quorum broadcast client of the key directory

    A shallow embedding of the PBFT key-server client (class [PBFTClient])
    and of the [KeyServer] wrapper that drives it.

    Two revisions of the client are embedded:
    - [module Signed]: the revision whose upload workflow looks the identity
      up first, signs updates with the caller's old key and asks a domain
      authority for a signature on creation;
    - [module Plain]: the revision stored as [src/modules/pbftClient.js],
      next to [keyserver.js], whose upload is a single POST broadcast.
    The constructor and [_path] are the same in both.  A revision between the
    two, whose upload looks the identity up but sends unsigned payloads,
    counts votes as [Signed] does: [module Unsigned].

    Promise chains are run sequentially: a [then] handler runs when, and only
    when, the promise before it is fulfilled; a chain blocked on a pending
    promise performs no further effect.  [console.log] is not modelled. *)

From Stdlib Require Import Ascii.
From stdpp Require Import gmap strings list pretty.

Set Warnings "-register-all".
Local Open Scope Z_scope.

(** ** JavaScript values *)

(** Values produced by [response.json()] and object literals of the client.
    [JNum] covers the integers whose string form is the plain decimal numeral
    (magnitude below 10^21). *)
Inductive Json :=
| JNull
| JBool (b : bool)
| JNum (z : Z)
| JStr (s : string)
| JArr (items : list Json)
| JObj (fields : list (string * Json)).

(** [Array.prototype.join]. *)
Fixpoint join (sep : string) (l : list string) : string :=
  match l with
  | [] => ""
  | [s] => s
  | s :: rest => s +:+ sep +:+ join sep rest
  end.

(** The string coercion applied by a template literal [`${v}`]. *)
Fixpoint ToString (v : Json) : string :=
  match v with
  | JNull => "null"
  | JBool true => "true"
  | JBool false => "false"
  | JNum z => pretty z
  | JStr s => s
  | JArr items =>
      join "," (map (fun e => match e with JNull => "" | _ => ToString e end) items)
  | JObj _ => "[object Object]"
  end.

(** [`${x}`] for a property that holds a number, or is undefined ([None]). *)
Definition tpl_num (x : option N) : string :=
  match x with Some n => pretty n | None => "undefined" end.

(** [`${x}`] for a property that holds a string, or is undefined ([None]);
    also used for a string that may be [null], see [tpl_null]. *)
Definition tpl_str (x : option string) : string :=
  match x with Some s => s | None => "undefined" end.

(** [`${x}`] for a string that may be [null] ([None]). *)
Definition tpl_null (x : option string) : string :=
  match x with Some s => s | None => "null" end.

(** Truthiness of a string that may be undefined: [if (s)]. *)
Definition truthy (s : option string) : bool :=
  match s with Some (String _ _) => true | _ => false end.

(** [s.startsWith(p)]. *)
Fixpoint startsWith (s p : string) : bool :=
  match p, s with
  | EmptyString, _ => true
  | String a p', String b s' => if decide (a = b) then startsWith s' p' else false
  | String _ _, EmptyString => false
  end.

(** [Math.ceil(a / b)] for integers [a] and positive [b]. *)
Definition Math_ceil_div (a b : Z) : Z := - ((- a) `div` b).

(** The text [JSON.stringify(v)], kept symbolic. *)
Inductive JsonText := JSON_stringify (v : Json).

(** ** Promises *)

(** Values a promise is rejected with. *)
Inductive Thrown :=
| ThrownString (s : string)        (* a string: [typeof e === "string"] *)
| ThrownError (message : string)   (* [Error(message)] *)
| ThrownNative (name : string)     (* an error raised by the engine: "TypeError", "SyntaxError" *)
| ThrownMessage (e : Thrown).      (* the object literal [{message: e}] *)

Inductive Promise (A : Type) :=
| Pending
| Fulfilled (a : A)
| Rejected (e : Thrown).
Arguments Pending {A}.
Arguments Fulfilled {A} a.
Arguments Rejected {A} e.

(** ** Cluster configuration and the client object *)

Record Node := { host : string; clientport : N }.

(** The document [config/cluster.json]. *)
Record ClusterConfig := { config_nodes : list Node }.

Record PBFTClient := { nodes : list Node; F : Z }.

(** [constructor(config)]. *)
Definition constructor (config : ClusterConfig) : PBFTClient :=
  {| nodes := config_nodes config;
     F := Math_ceil_div (Z.of_nat (length (config_nodes config)) - 1) 3 |}.

(** ** What a node delivers *)

(** The argument of [processResponse]: a [Response] of [fetch], the object the
    timer rejects with, or the error [fetch] rejects with.  Only the
    properties that [processResponse] reads are kept. *)
Record Response := {
  status : option N;             (* [response.status] *)
  statusText : option string;    (* [response.statusText] *)
  ok : bool;                     (* truthiness of [response.ok] *)
  json : option Json;            (* value [response.json()] resolves with; [None]: it rejects *)
  text : option (option string)  (* [None]: [response.text == undefined];
                                    [Some t]: [response.text()] resolves with [t], or rejects ([None]) *)
}.

(** A [Response] object received from a node: [ok] is decided by the status. *)
Definition httpResponse (code : N) (reason : string)
    (parsed : option Json) (raw : option string) : Response :=
  {| status := Some code; statusText := Some reason;
     ok := bool_decide (200 ≤ code ≤ 299)%N;
     json := parsed; text := Some raw |}.

(** [{status: 520, statusText: "Request Timeout"}], the value the 7000 ms
    timer rejects the race with. *)
Definition timeoutObject : Response :=
  {| status := Some 520%N; statusText := Some "Request Timeout";
     ok := false; json := None; text := None |}.

(** The [TypeError] a failed [fetch] rejects with: none of the properties. *)
Definition fetchError : Response :=
  {| status := None; statusText := None; ok := false; json := None; text := None |}.

(** What the [fetch] to one node does: it settles [elapsed] ms after the
    request, fulfilled with a [Response] or rejected with an error, or it
    never settles. *)
Inductive Answer :=
| Answers (elapsed : N) (response : Response)
| Silent.

(** [Promise.race([fetch, timer])], the timer rejecting after 7000 ms: what
    is handed to [processResponse].  An answer that is not there before the
    timer fires is discarded. *)
Definition race (a : Answer) : Response :=
  match a with
  | Answers elapsed response =>
      if bool_decide (elapsed < 7000)%N then response else timeoutObject
  | Silent => timeoutObject
  end.

(** The classified result of one node, as handed to the vote-counting callback. *)
Inductive NodeOutcome :=
| Success (code : option N) (reason : option string) (body : Json)
| Failure (code : option N) (reason : option string) (body : string).

(** What the promise returned by [_broadcast] is settled with. *)
Record QuorumSuccess := {
  res_status : option N; res_statusText : option string; res_body : Json }.

Inductive QuorumResult :=
| ResolvedSuccess (r : QuorumSuccess)   (* [resolve({status, statusText, body})] *)
| ResolvedFailure (errorKey : string).  (* [reject(error)] *)

(** The variables closed over by [processResponse]. *)
Record BroadcastState := {
  responseMap : gmap string Z;
  promiseResolved : bool;
  settled : list QuorumResult   (* calls of [resolve] and [reject], oldest first *)
}.

(** The [get] trap of the proxy: [name in map ? map[name] : 0].  Every key
    used below starts with a digit or with "undefined", so none names an
    inherited property of the [Map] object. *)
Definition proxy_get (map : gmap string Z) (name : string) : Z :=
  match map !! name with Some n => n | None => 0 end.

Definition fresh : BroadcastState :=
  {| responseMap := ∅; promiseResolved := false; settled := [] |}.

(** The state of the returned promise: the first call of [resolve] or
    [reject] settles it, later calls do nothing. *)
Definition promise_of (st : BroadcastState) : Promise QuorumSuccess :=
  match settled st with
  | [] => Pending
  | ResolvedSuccess r :: _ => Fulfilled r
  | ResolvedFailure e :: _ => Rejected (ThrownString e)
  end.

(** ** Collaborators and the world the client runs in *)

(** Code outside the client: the platform's URL escaping and JSON parser,
    OpenPGP, the key ring and the key unlocking of the extension. *)
Class External := {
  Key : Type;
  Keyring : Type;
  encodeURIComponent : string → string;
  JSON_parse : string → option Json;                (* [None]: throws a [SyntaxError] *)
  fingerprint : Key → string;                       (* [k.primaryKey.fingerprint] *)
  readArmored : string → list Key;                  (* [openpgp.key.readArmored(s).keys] *)
  getKeyByAddress : Keyring → string → list Key;    (* [ring.getKeyByAddress([email], {pub: false, priv: true})[email]] *)
  removeKey : Keyring → string → Keyring;           (* [ring.removeKey(fingerprint, "private")] *)
  unlockKey : Key → option string → Promise Key;    (* [pgpModel.unlockKey(lockedKey, passphrase)] *)
  sign : JsonText → Key → Promise string            (* [openpgp.sign({data, privateKeys, armor: true, detached: true})], then [res.signature] *)
}.

(** Effects visible outside the client. *)
Inductive Event :=
| EvFetchConfig                                                  (* [window.fetch(chrome.runtime.getURL("config/cluster.json"))] *)
| EvFetch (url : string) (method : string) (body : option JsonText)  (* [window.fetch(url, options)] to a node *)
| EvPrompt (message : string)                                    (* [window.prompt(message)] *)
| EvRemoveKey (fp : string).                                     (* [ring.removeKey(fp, "private")] *)

Section World.
Context `{External}.

Record World := {
  inbox : list (list Answer);      (* for each broadcast still to come: what the nodes do,
                                      in the order in which the votes are counted *)
  answers : list (option string);  (* what is typed into the prompts still to come; [None]: dismissed *)
  clock : N;                       (* [Date.now()] *)
  cluster_json : Promise ClusterConfig;  (* fetching and parsing [config/cluster.json] *)
  ring : Keyring;                  (* [keyring.getById(mvelo.LOCAL_KEYRING_ID)] *)
  _pbftClient : option PBFTClient; (* the field [this._pbftClient] of the [KeyServer] object *)
  trace : list Event               (* effects so far, oldest first *)
}.

Definition emit (evs : list Event) (w : World) : World :=
  {| inbox := inbox w; answers := answers w; clock := clock w;
     cluster_json := cluster_json w; ring := ring w;
     _pbftClient := _pbftClient w; trace := trace w ++ evs |}.

Definition next_broadcast (w : World) : World :=
  {| inbox := tail (inbox w); answers := answers w; clock := clock w;
     cluster_json := cluster_json w; ring := ring w;
     _pbftClient := _pbftClient w; trace := trace w |}.

Definition next_answer (w : World) : World :=
  {| inbox := inbox w; answers := tail (answers w); clock := clock w;
     cluster_json := cluster_json w; ring := ring w;
     _pbftClient := _pbftClient w; trace := trace w |}.

Definition with_ring (r : Keyring) (w : World) : World :=
  {| inbox := inbox w; answers := answers w; clock := clock w;
     cluster_json := cluster_json w; ring := r;
     _pbftClient := _pbftClient w; trace := trace w |}.

(** A computation that ends in a promise. *)
Definition M (A : Type) : Type := World → Promise A * World.

Definition resolve {A} (a : A) : M A := fun w => (Fulfilled a, w).
Definition throw {A} (e : Thrown) : M A := fun w => (Rejected e, w).
Definition await {A} (p : Promise A) : M A := fun w => (p, w).

(** [p.then(f)]. *)
Definition then_ {A B} (p : M A) (f : A → M B) : M B := fun w =>
  match p w with
  | (Fulfilled a, w') => f a w'
  | (Rejected e, w') => (Rejected e, w')
  | (Pending, w') => (Pending, w')
  end.

(** [p.catch(h)]. *)
Definition catch_ {A} (p : M A) (h : Thrown → M A) : M A := fun w =>
  match p w with
  | (Rejected e, w') => h e w'
  | other => other
  end.

(** [window.prompt(message)]. *)
Definition prompt (message : string) : M (option string) := fun w =>
  (Fulfilled (default None (head (answers w))), next_answer (emit [EvPrompt message] w)).

(** [Date.now()]. *)
Definition Date_now : M N := fun w => (Fulfilled (clock w), w).

(** [keyring.getById(mvelo.LOCAL_KEYRING_ID).removeKey(fp, "private")]. *)
Definition ring_removeKey (fp : string) : M unit := fun w =>
  (Fulfilled (), with_ring (removeKey (ring w) fp) (emit [EvRemoveKey fp] w)).

(** [http://${node["host"]}:${node["clientport"]}${path}], [path] possibly [null]. *)
Definition node_url (path : option string) (node : Node) : string :=
  "http://" +:+ host node +:+ ":" +:+ pretty (clientport node) +:+ tpl_null path.

(** What the races of a broadcast to [n] nodes deliver, one per node: the
    nodes the world says nothing about stay silent. *)
Definition deliveries (n : nat) (w : World) : list Response :=
  map race (take n (default [] (head (inbox w)) ++ replicate n Silent)).

(** The fan-out of [_broadcast]: one [window.fetch] per node, each raced
    against its timer, and [process] applied to what each race delivers. *)
Definition fan_out (process : BroadcastState → Response → BroadcastState)
    (this : PBFTClient) (path : option string) (method : string)
    (body : option JsonText) : M QuorumSuccess := fun w =>
  let requests := map (fun node => EvFetch (node_url path node) method body) (nodes this) in
  (promise_of (foldl process fresh (deliveries (length (nodes this)) w)),
   next_broadcast (emit requests w)).

End World.

Notation "p 'THEN' f" := (then_ p f) (at level 61, left associativity).
Notation "p 'CATCH' h" := (catch_ p h) (at level 61, left associativity).

(** [payload[name] = v] on an object. *)
Fixpoint assign (name : string) (v : Json) (fields : list (string * Json)) : list (string * Json) :=
  match fields with
  | [] => [(name, v)]
  | (k, x) :: rest => if decide (k = name) then (k, v) :: rest else (k, x) :: assign name v rest
  end.

(** [_path(email)]; [None] is [null]. *)
Definition _path `{External} (email : string) : option string :=
  if truthy (Some email) then Some ("?name=" +:+ encodeURIComponent email) else None.

(** The argument of [upload]: [options.email] and [options.publicKeyArmored]. *)
Record UploadOptions := { email : string; publicKeyArmored : string }.

(** ** The revision with the signed upload workflow *)

Module Signed.

(** The branch of [processResponse] and the body it waits for.  [None]: the
    body promise rejects, and the callback never runs. *)
Definition readBody (response : Response) : option NodeOutcome :=
  if ok response then
    match json response with
    | Some body => Some (Success (status response) (statusText response) body)
    | None => None
    end
  else
    match text response with
    | None => Some (Failure (status response) (statusText response) "")
    | Some (Some body) => Some (Failure (status response) (statusText response) body)
    | Some None => None
    end.

(** [`${status} ${statusText} ${body}`]. *)
Definition ResponseKey (o : NodeOutcome) : string :=
  match o with
  | Success code reason body =>
      tpl_num code +:+ " " +:+ tpl_str reason +:+ " " +:+ ToString body
  | Failure code reason body =>
      tpl_num code +:+ " " +:+ tpl_str reason +:+ " " +:+ body
  end.

(** The callbacks [body => {...}] of both branches. *)
Definition countOutcome (F : Z) (o : NodeOutcome) (st : BroadcastState) : BroadcastState :=
  match o with
  | Success code reason body =>
      let res := ResponseKey o in
      let n := proxy_get (responseMap st) res + 1 in
      let map := <[res := n]> (responseMap st) in
      if bool_decide (n = F + 1) && negb (promiseResolved st) then
        {| responseMap := map; promiseResolved := true;
           settled := settled st ++
             [ResolvedSuccess {| res_status := code; res_statusText := reason; res_body := body |}] |}
      else
        {| responseMap := map; promiseResolved := promiseResolved st; settled := settled st |}
  | Failure code reason body =>
      let error := ResponseKey o in
      let map := <[error := proxy_get (responseMap st) error + 1]> (responseMap st) in
      if bool_decide (proxy_get map error = F + 1) && negb (promiseResolved st) then
        {| responseMap := map; promiseResolved := true;
           settled := settled st ++ [ResolvedFailure error] |}
      else
        {| responseMap := map; promiseResolved := promiseResolved st; settled := settled st |}
  end.

Definition processResponse (F : Z) (st : BroadcastState) (response : Response) : BroadcastState :=
  match readBody response with
  | Some o => countOutcome F o st
  | None => st
  end.

(** The messages of the two prompts. *)
Definition password_prompt : string := "What is the password for the old key?".
Definition signature_prompt : string :=
  "This is a new email. Please acquire signature from domain authority and paste here. The public key can be copied from the console".

(** [e] is the "not found" failure: [typeof e === "string" && e.startsWith(404)]. *)
Definition not_found (e : Thrown) : bool :=
  match e with
  | ThrownString s => startsWith s "404"
  | _ => false
  end.

Section Workflows.
Context `{External}.

(** [_broadcast(path, method, body)]; [method] and [body] may be undefined. *)
Definition _broadcast (this : PBFTClient) (path : option string)
    (method : option string) (body : option Json) : M QuorumSuccess :=
  if truthy method
  then fan_out (processResponse (F this)) this path (tpl_str method) (JSON_stringify <$> body)
  else fan_out (processResponse (F this)) this path "GET" None.

(** [lookup(email)]. *)
Definition lookup (this : PBFTClient) (email : string) : M JsonText :=
  _broadcast this (_path email) None None
    THEN (fun r =>
      let payload := JObj [
        ("keyId", JStr "keyid");
        ("fingerprint", JStr "fingerprint");
        ("userIds", JArr [JObj [("name", JStr "name"); ("email", JStr email); ("verified", JBool true)]]);
        ("created", JStr "2017-12-10T03: 03: 20.763Z");
        ("uploaded", JStr "2017-12-10T03: 03: 20.763Z");
        ("algorithm", JStr "rsa_encrypt_sign");
        ("keySize", JNum 4096);
        ("publicKeyArmored", res_body r)] in
      resolve (JSON_stringify payload))
    CATCH (fun e => throw e).

(** [genPayload(email, publicKey)]. *)
Definition genPayload (email publicKey : string) : M Json :=
  Date_now THEN (fun now =>
    resolve (JObj [("alias", JStr email); ("key", JStr publicKey); ("timestamp", JNum (Z.of_N now))])).

(** [appendSignature(payload, signature)]. *)
Definition appendSignature (payload : Json) (signature : Json) : Json :=
  match payload with
  | JObj fields => JObj (assign "signature" signature fields)
  | other => other
  end.

(** [signPayload(payload, key)]. *)
Definition signPayload (payload : Json) (key : Key) : M Json :=
  let toSign := JSON_stringify payload in
  await (sign toSign key)
    THEN (fun signature => resolve (appendSignature payload (JStr signature))).

(** [findPrivateKey(email, exclude)].  The filter callback reads
    [excludeKey.primaryKey] once per locked key, so an armored text without a
    key only fails when there is a locked key to compare with. *)
Definition findPrivateKey (email exclude : string) : M Key := fun w =>
  let excludeKey := head (readArmored exclude) in
  let lockedKeys := getKeyByAddress (ring w) email in
  match lockedKeys, excludeKey with
  | _ :: _, None => (Rejected (ThrownNative "TypeError"), w)
  | _, _ =>
    let lockedKeysEx :=
      filter (fun k => Some (fingerprint k) ≠ (fingerprint <$> excludeKey)) lockedKeys in
    match lockedKeysEx with
    | [] => (Rejected (ThrownError
               ("You do not own the key for the email " +:+ email +:+ " so you cannot update it.")), w)
    | lockedKey :: _ =>
        (prompt password_prompt
           THEN (fun passphrase => await (unlockKey lockedKey passphrase))) w
    end
  end.

(** [upload(options)].  The handlers after [findPrivateKey] are nested so
    that the last one sees [key], which the source keeps in the variable
    [oldPrivateKey]. *)
Definition upload (this : PBFTClient) (options : UploadOptions) : M QuorumSuccess :=
  let email := email options in
  let publicKey := publicKeyArmored options in
  lookup this email
    THEN (fun _ => findPrivateKey email publicKey)
    THEN (fun oldPrivateKey =>
      genPayload email publicKey
        THEN (fun payload => signPayload payload oldPrivateKey)
        THEN (fun signedPayload =>
          _broadcast this (Some "") (Some "PUT") (Some signedPayload)
            THEN (fun r =>
              ring_removeKey (fingerprint oldPrivateKey) THEN (fun _ => resolve r))
            CATCH (fun e => throw (ThrownMessage e))))
    CATCH (fun e =>
      if not_found e then
        prompt signature_prompt
          THEN (fun signature =>
            genPayload email publicKey
              THEN (fun payload =>
                _broadcast this (Some "") (Some "POST")
                  (Some (appendSignature payload
                           (match signature with Some sig => JStr sig | None => JNull end)))
                  THEN (fun r => resolve r)
                  CATCH (fun e => throw (ThrownMessage e))))
      else throw e).

End Workflows.

End Signed.

(** ** The revision of [src/modules/pbftClient.js] *)

Module Plain.

(** A failure is counted as soon as it is delivered and its body is never
    read: the [Failure] outcome carries the empty body. *)
Definition readBody (response : Response) : option NodeOutcome :=
  if ok response then
    match json response with
    | Some body => Some (Success (status response) (statusText response) body)
    | None => None
    end
  else Some (Failure (status response) (statusText response) "").

(** [`${status}${statusText}${body}`] for a success, [`${status}${statusText}`]
    for a failure. *)
Definition ResponseKey (o : NodeOutcome) : string :=
  match o with
  | Success code reason body => tpl_num code +:+ tpl_str reason +:+ ToString body
  | Failure code reason _ => tpl_num code +:+ tpl_str reason
  end.

Definition countOutcome (F : Z) (o : NodeOutcome) (st : BroadcastState) : BroadcastState :=
  match o with
  | Success code reason body =>
      let n := proxy_get (responseMap st) (ResponseKey o) + 1 in
      let map := <[ResponseKey o := n]> (responseMap st) in
      if bool_decide (n = F + 1) && negb (promiseResolved st) then
        {| responseMap := map; promiseResolved := true;
           settled := settled st ++
             [ResolvedSuccess {| res_status := code; res_statusText := reason; res_body := body |}] |}
      else
        {| responseMap := map; promiseResolved := promiseResolved st; settled := settled st |}
  | Failure code reason _ =>
      let key := ResponseKey o in
      let map := <[key := proxy_get (responseMap st) key + 1]> (responseMap st) in
      if bool_decide (proxy_get map key = F + 1) && negb (promiseResolved st) then
        {| responseMap := map; promiseResolved := true;
           settled := settled st ++ [ResolvedFailure (tpl_num code +:+ " " +:+ tpl_str reason)] |}
      else
        {| responseMap := map; promiseResolved := promiseResolved st; settled := settled st |}
  end.

Definition processResponse (F : Z) (st : BroadcastState) (response : Response) : BroadcastState :=
  match readBody response with
  | Some o => countOutcome F o st
  | None => st
  end.

Section Workflows.
Context `{External}.

(** [_broadcast(path, method, body)]: a [body], when given, is a non-empty
    text and comes with its [method], as in every call of the class. *)
Definition _broadcast (this : PBFTClient) (path : option string)
    (method : option string) (body : option JsonText) : M QuorumSuccess :=
  match body with
  | Some _ => fan_out (processResponse (F this)) this path (default "GET" method) body
  | None => fan_out (processResponse (F this)) this path "GET" None
  end.

(** [lookup(email)]. *)
Definition lookup (this : PBFTClient) (email : string) : M QuorumSuccess :=
  _broadcast this (_path email) None None
    THEN (fun r => resolve r)
    CATCH (fun e => throw e).

(** [upload(options)]. *)
Definition upload (this : PBFTClient) (options : UploadOptions) : M QuorumSuccess :=
  let payload := JObj [
    ("keyId", JStr "keyid");
    ("fingerprint", JStr "fingerprint");
    ("userIds", JArr [JObj [("name", JStr "name"); ("email", JStr (email options)); ("verified", JBool true)]]);
    ("created", JStr "2017-12-10T03: 03: 08.000Z");
    ("uploaded", JStr "2017-12-10T03: 03: 20.763Z");
    ("algorithm", JStr "rsa_encrypt_sign");
    ("keySize", JNum 4096);
    ("publicKeyArmored", JStr (publicKeyArmored options))] in
  _broadcast this (_path (email options)) (Some "POST") (Some (JSON_stringify payload))
    THEN (fun r => resolve r)
    CATCH (fun e => throw (ThrownMessage e)).

End Workflows.

End Plain.

(** ** The revision between the two: lookup first, unsigned payloads *)

Module Unsigned.
Section Workflows.
Context `{External}.

(** [_broadcast(path, method, body)]: the votes are counted as in the signed
    revision; a [body], when given, is a non-empty text and comes with its
    [method]. *)
Definition _broadcast (this : PBFTClient) (path : option string)
    (method : option string) (body : option JsonText) : M QuorumSuccess :=
  match body with
  | Some _ => fan_out (Signed.processResponse (F this)) this path (default "GET" method) body
  | None => fan_out (Signed.processResponse (F this)) this path "GET" None
  end.

(** [lookup(email)]. *)
Definition lookup (this : PBFTClient) (email : string) : M JsonText :=
  _broadcast this (_path email) None None
    THEN (fun r =>
      let payload := JObj [
        ("keyId", JStr "keyid");
        ("fingerprint", JStr "fingerprint");
        ("userIds", JArr [JObj [("name", JStr "name"); ("email", JStr email); ("verified", JBool true)]]);
        ("created", JStr "2017-12-10T03: 03: 20.763Z");
        ("uploaded", JStr "2017-12-10T03: 03: 20.763Z");
        ("algorithm", JStr "rsa_encrypt_sign");
        ("keySize", JNum 4096);
        ("publicKeyArmored", res_body r)] in
      resolve (JSON_stringify payload))
    CATCH (fun e => throw e).

(** [constructKeyPayload(email, publicKey)]. *)
Definition constructKeyPayload (email publicKey : string) : M JsonText :=
  Date_now THEN (fun now =>
    resolve (JSON_stringify
               (JObj [("alias", JStr email); ("key", JStr publicKey);
                      ("timestamp", JNum (Z.of_N now))]))).

(** [upload(options)].  The handler of the outer [catch] calls
    [e.startsWith] on whatever was thrown: on a value that is not a string
    the call itself throws a [TypeError]. *)
Definition upload (this : PBFTClient) (options : UploadOptions) : M QuorumSuccess :=
  let email := email options in
  let publicKey := publicKeyArmored options in
  lookup this email
    THEN (fun _ =>
      constructKeyPayload email publicKey
        THEN (fun payload =>
          _broadcast this (Some "") (Some "PUT") (Some payload)
            THEN (fun r => resolve r)
            CATCH (fun e => throw (ThrownMessage e))))
    CATCH (fun e =>
      match e with
      | ThrownString s =>
          if startsWith s "404" then
            prompt Signed.signature_prompt
              THEN (fun signature =>
                constructKeyPayload email publicKey
                  THEN (fun payload =>
                    _broadcast this (Some "") (Some "POST") (Some payload)
                      THEN (fun r => resolve r)
                      CATCH (fun e => throw (ThrownMessage e))))
          else throw e
      | _ => throw (ThrownNative "TypeError")
      end).

End Workflows.
End Unsigned.

(** ** The wrapper of [src/modules/keyserver.js] *)

Module KeyServer.

(** The argument of [lookup]; a missing property is [None]. *)
Record LookupOptions := {
  by_email : option string; by_keyId : option string; by_fingerprint : option string }.

Section Wrapper.
Context `{External}.

(** [getPBFTClient()].  No method of the class assigns [this._pbftClient]. *)
Definition getPBFTClient : M PBFTClient := fun w =>
  match _pbftClient w with
  | Some client => (Fulfilled client, w)
  | None =>
      (await (cluster_json w) THEN (fun response => resolve (constructor response)))
        (emit [EvFetchConfig] w)
  end.

(** [lookup(options)]; the fulfilment value [None] is [undefined]. *)
Definition lookup (options : LookupOptions) : M (option Json) :=
  if negb (truthy (by_email options)) then
    throw (ThrownString "Only lookup by email is currently supported by PBFT")
  else
    getPBFTClient
      THEN (fun client => Plain.lookup client (tpl_str (by_email options)))
      THEN (fun response =>
        match JSON_parse (ToString (res_body response)) with
        | Some key => resolve (Some key)
        | None => throw (ThrownNative "SyntaxError")
        end)
      CATCH (fun error => resolve None).

(** [upload(options)]. *)
Definition upload (options : UploadOptions) : M QuorumSuccess :=
  getPBFTClient THEN (fun client => Plain.upload client options).

(** [_url(options)]; [options] itself may be undefined ([None]).  The class
    has no constructor and no method assigns [this._baseUrl]: it is passed
    as [baseUrl], undefined ([None]) on an object made by [new KeyServer()]. *)
Definition _url (baseUrl : option string) (options : option LookupOptions) : string :=
  let url := tpl_str baseUrl +:+ "/api/v1/key" in
  match options with
  | Some o =>
      if truthy (by_email o) then url +:+ "?email=" +:+ encodeURIComponent (tpl_str (by_email o))
      else if truthy (by_fingerprint o) then
        url +:+ "?fingerprint=" +:+ encodeURIComponent (tpl_str (by_fingerprint o))
      else if truthy (by_keyId o) then
        url +:+ "?keyId=" +:+ encodeURIComponent (tpl_str (by_keyId o))
      else url
  | None => url
  end.

(** [_checkStatus(response)]: the response, or the thrown [Error] with its
    [message] and its [response].  [new Error(undefined)] has the empty
    message. *)
Inductive Checked :=
| StatusOk (response : Response)
| StatusError (message : string) (response : Response).

Definition _checkStatus (response : Response) : Checked :=
  match status response with
  | Some code =>
      if bool_decide (200 ≤ code)%N && bool_decide (code < 300)%N
      then StatusOk response
      else StatusError (default "" (statusText response)) response
  | None => StatusError (default "" (statusText response)) response
  end.

(** What the promise of [remove] ends in. *)
Inductive Removal :=
| RemovalPending
| Removed (response : Response)
| RemovalRefused (message : string) (response : Response)  (* the [Error] of [_checkStatus] *)
| RemovalFailed.                                           (* [fetch] rejected *)

(** [remove(options)].  The server's part is the first answer of the next
    entry of the inbox; there is no timer, and a [fetch] that fails is an
    answer without a status. *)
Definition remove (baseUrl : option string) (options : option LookupOptions)
    (w : World) : Removal * World :=
  let w' := next_broadcast (emit [EvFetch (_url baseUrl options) "DELETE" None] w) in
  match head (default [] (head (inbox w))) with
  | Some (Answers _ response) =>
      match status response with
      | None => (RemovalFailed, w')
      | Some _ =>
          match _checkStatus response with
          | StatusOk r => (Removed r, w')
          | StatusError message r => (RemovalRefused message r, w')
          end
      end
  | Some Silent | None => (RemovalPending, w')
  end.

End Wrapper.

End KeyServer.

(** ** Vocabulary of the statements *)

(** The statements about counting are made once for both revisions: a
    revision brings its body reader [readBody], its key [key] and its
    callback [count]. *)

(** The outcomes whose votes a broadcast of [this] counts in world [w]. *)
Definition votes `{External} (readBody : Response → option NodeOutcome)
    (this : PBFTClient) (w : World) : list NodeOutcome :=
  omap readBody (deliveries (length (nodes this)) w).

(** The closed-over state after the callbacks of [outcomes] have run, in
    that order. *)
Definition aggregate (count : Z → NodeOutcome → BroadcastState → BroadcastState)
    (F : Z) (outcomes : list NodeOutcome) : BroadcastState :=
  foldl (fun st o => count F o st) fresh outcomes.

(** Number of outcomes of [outcomes] whose key is [k]. *)
Definition tally (key : NodeOutcome → string) (k : string) (outcomes : list NodeOutcome) : Z :=
  Z.of_nat (length (filter (fun o => key o = k) outcomes)).

(** The [i]-th outcome is [o] and brings the counter of its key to [F + 1]. *)
Definition reaches_quorum (key : NodeOutcome → string) (F : Z)
    (outcomes : list NodeOutcome) (i : nat) (o : NodeOutcome) : Prop :=
  outcomes !! i = Some o ∧ tally key (key o) (take (S i) outcomes) = F + 1.

(** What the call is settled with when outcome [o] completes a quorum, in
    the signed revision and in the plain one. *)
Definition verdict (o : NodeOutcome) : QuorumResult :=
  match o with
  | Success code reason body =>
      ResolvedSuccess {| res_status := code; res_statusText := reason; res_body := body |}
  | Failure _ _ _ => ResolvedFailure (Signed.ResponseKey o)
  end.

Definition plain_verdict (o : NodeOutcome) : QuorumResult :=
  match o with
  | Success code reason body =>
      ResolvedSuccess {| res_status := code; res_statusText := reason; res_body := body |}
  | Failure code reason _ => ResolvedFailure (tpl_num code +:+ " " +:+ tpl_str reason)
  end.

(** Whether a text contains a space. *)
Fixpoint has_space (s : string) : bool :=
  match s with
  | EmptyString => false
  | String a rest => bool_decide (a = " "%char) || has_space rest
  end.

(** The three texts a key of the signed revision is built from. *)
Definition rendered (o : NodeOutcome) : string * string * string :=
  match o with
  | Success code reason body => (tpl_num code, tpl_str reason, ToString body)
  | Failure code reason body => (tpl_num code, tpl_str reason, body)
  end.

(** A call of the wrapper. *)
Inductive Call :=
| CallLookup (options : KeyServer.LookupOptions)
| CallUpload (options : UploadOptions).

(** The world after a call, and after a sequence of calls, of one [KeyServer]. *)
Definition run_call `{External} (c : Call) (w : World) : World :=
  match c with
  | CallLookup options => (KeyServer.lookup options w).2
  | CallUpload options => (KeyServer.upload options w).2
  end.

Definition run_calls `{External} (cs : list Call) (w : World) : World :=
  foldl (fun w c => run_call c w) w cs.

(** The calls that get as far as [getPBFTClient]. *)
Definition needs_client (c : Call) : bool :=
  match c with
  | CallLookup options => truthy (KeyServer.by_email options)
  | CallUpload _ => true
  end.

Definition is_config_fetch (ev : Event) : bool :=
  match ev with EvFetchConfig => true | _ => false end.

(** Number of fetches of [config/cluster.json] in a trace. *)
Definition config_fetches (t : list Event) : nat := length (List.filter is_config_fetch t).

(** The fingerprints handed to [ring.removeKey] in a trace, oldest first. *)
Definition removals (t : list Event) : list string :=
  omap (fun ev => match ev with EvRemoveKey fp => Some fp | _ => None end) t.

(** The requests of a trace: url, method and body of each [window.fetch] to a node. *)
Definition requests (t : list Event) : list (string * string * option JsonText) :=
  omap (fun ev => match ev with EvFetch url method body => Some (url, method, body) | _ => None end) t.

(** The promise of [p.then(r => r).catch(e => { throw {message: e}; })]. *)
Definition wrapped {A} (p : Promise A) : Promise A :=
  match p with
  | Rejected e => Rejected (ThrownMessage e)
  | other => other
  end.

(** The promise of a broadcast that outcome [o] settles, in the signed revision. *)
Definition outcome_promise (o : NodeOutcome) : Promise QuorumSuccess :=
  match o with
  | Success code reason body =>
      Fulfilled {| res_status := code; res_statusText := reason; res_body := body |}
  | Failure _ _ _ => Rejected (ThrownString (Signed.ResponseKey o))
  end.

(** The requests of one broadcast: one per node, in the order of the nodes. *)
Definition node_requests (this : PBFTClient) (path : option string) (method : string)
    (body : option JsonText) : list (string * string * option JsonText) :=
  map (fun node => (node_url path node, method, body)) (nodes this).

(** The record that [lookup] of the signed and of the unsigned revision
    makes of the address it was asked for and the body the nodes agreed on. *)
Definition credential (address : string) (body : Json) : Json :=
  JObj [
    ("keyId", JStr "keyid");
    ("fingerprint", JStr "fingerprint");
    ("userIds", JArr [JObj [("name", JStr "name"); ("email", JStr address); ("verified", JBool true)]]);
    ("created", JStr "2017-12-10T03: 03: 20.763Z");
    ("uploaded", JStr "2017-12-10T03: 03: 20.763Z");
    ("algorithm", JStr "rsa_encrypt_sign");
    ("keySize", JNum 4096);
    ("publicKeyArmored", body)].

(** The identifier a request of the wrapper is about: the first of email,
    fingerprint and key id that is there and not empty, with its name. *)
Definition named_identifier (o : KeyServer.LookupOptions) : option (string * string) :=
  head (omap (fun field : string * option string =>
                if truthy field.2 then Some (field.1, tpl_str field.2) else None)
          [("email", KeyServer.by_email o); ("fingerprint", KeyServer.by_fingerprint o);
           ("keyId", KeyServer.by_keyId o)]).

(** The branch of [upload] for an address that is not known yet: the prompt
    for the signature, then the POST broadcast of the payload with what was
    typed, its rejection wrapped as a message. *)
Definition post_branch `{External} (this : PBFTClient) (options : UploadOptions) : M QuorumSuccess :=
  fun w =>
  let signature :=
    match default None (head (answers w)) with Some sig => JStr sig | None => JNull end in
  let payload :=
    JObj [("alias", JStr (email options)); ("key", JStr (publicKeyArmored options));
          ("timestamp", JNum (Z.of_N (clock w))); ("signature", signature)] in
  let post :=
    Signed._broadcast this (Some "") (Some "POST") (Some payload)
      (next_answer (emit [EvPrompt Signed.signature_prompt] w)) in
  (wrapped post.1, post.2).

(** The handler of the last [catch] of [upload]. *)
Definition upload_handler `{External} (this : PBFTClient) (options : UploadOptions)
    (e : Thrown) : M QuorumSuccess :=
  if Signed.not_found e then post_branch this options else throw e.

(** The branch of [upload] for a known address, from the signed payload on:
    the PUT broadcast, and the removal of the old key when it is fulfilled. *)
Definition put_branch `{External} (this : PBFTClient) (options : UploadOptions)
    (oldPrivateKey : Key) (signature : string) : M QuorumSuccess := fun w =>
  let signedPayload :=
    JObj [("alias", JStr (email options)); ("key", JStr (publicKeyArmored options));
          ("timestamp", JNum (Z.of_N (clock w))); ("signature", JStr signature)] in
  let put := Signed._broadcast this (Some "") (Some "PUT") (Some signedPayload) w in
  match put.1 with
  | Fulfilled r =>
      (Fulfilled r,
       with_ring (removeKey (ring put.2) (fingerprint oldPrivateKey))
         (emit [EvRemoveKey (fingerprint oldPrivateKey)] put.2))
  | Rejected e => (Rejected (ThrownMessage e), put.2)
  | Pending => (Pending, put.2)
  end.

(** The text that [upload] hands to [openpgp.sign]. *)
Definition text_to_sign (options : UploadOptions) (now : N) : JsonText :=
  JSON_stringify (JObj [("alias", JStr (email options)); ("key", JStr (publicKeyArmored options));
                        ("timestamp", JNum (Z.of_N now))]).

(** ** Concrete collaborators and clusters for the scenarios *)

(** A key is known by its fingerprint and the address of its owner; an
    armored block is written as the fingerprint of the one key it holds. *)
Record SampleKey := { sk_fingerprint : string; sk_owner : string }.

(** [encodeURIComponent] on a text held as its UTF-8 bytes: letters, digits
    and the marks - _ . ! ~ * ' ( ) stay, every other byte becomes "%" and
    its two upper-case hexadecimal digits. *)
Fixpoint occurs (a : ascii) (s : string) : bool :=
  match s with
  | EmptyString => false
  | String b rest => bool_decide (a = b) || occurs a rest
  end.

Definition unreserved (a : ascii) : bool :=
  let n := N_of_ascii a in
  bool_decide (65 ≤ n ≤ 90)%N || bool_decide (97 ≤ n ≤ 122)%N || bool_decide (48 ≤ n ≤ 57)%N
  || occurs a "-_.!~*'()".

Definition hex_digit (n : N) : ascii :=
  if bool_decide (n < 10)%N then ascii_of_N (48 + n) else ascii_of_N (55 + n).

Fixpoint percent_encode (s : string) : string :=
  match s with
  | EmptyString => EmptyString
  | String a rest =>
      if unreserved a then String a (percent_encode rest)
      else String "%" (String (hex_digit (N_of_ascii a `div` 16))
                         (String (hex_digit (N_of_ascii a `mod` 16)) (percent_encode rest)))
  end.

(** [JSON.parse] on the three literal names; the scenarios parse no other text. *)
Definition parse_literal (s : string) : option Json :=
  if decide (s = "null") then Some JNull
  else if decide (s = "true") then Some (JBool true)
  else if decide (s = "false") then Some (JBool false)
  else None.

Definition sample_external : External := {|
  Key := SampleKey;
  Keyring := list SampleKey;
  encodeURIComponent := percent_encode;
  JSON_parse := parse_literal;
  fingerprint := sk_fingerprint;
  readArmored := fun block => [{| sk_fingerprint := block; sk_owner := "" |}];
  getKeyByAddress := fun ring address => filter (fun k => sk_owner k = address) ring;
  removeKey := fun ring fp => filter (fun k => sk_fingerprint k ≠ fp) ring;
  unlockKey := fun k _ => Fulfilled k;
  sign := fun _ k => Fulfilled ("signed by " +:+ sk_fingerprint k)
|}.

(** A cluster of [n] nodes. *)
Definition cluster (n : nat) : ClusterConfig :=
  {| config_nodes := map (fun i => {| host := "node" +:+ pretty i; clientport := 8000 |}) (seq 0 n) |}.

(** A world in which the nodes answer the next broadcasts as [deliveries]
    says, the prompts receive [typed], and the key ring holds [keys]. *)
Definition sample_world (n : nat) (deliveries : list (list Answer))
    (typed : list (option string)) (keys : list SampleKey) : @World sample_external :=
  @Build_World sample_external deliveries typed 1512875000000
    (Fulfilled (cluster n)) keys None [].

(** A node that answers after 120 ms with status 200 and a key. *)
Definition found (armored : string) : Answer :=
  Answers 120 (httpResponse 200 "OK" (Some (JStr armored)) (Some armored)).

(** A node that answers after 120 ms with an error page. *)
Definition refused (code : N) (reason page : string) : Answer :=
  Answers 120 (httpResponse code reason None (Some page)).

(** Collaborators that can fail: the empty text holds no key, a key is
    unlocked by the passphrase "secret" only, the key "REVOKED" does not
    sign, and signing with the key "CARD" fails with the text of the card
    reader, which starts with its error number 404. *)
Definition guarded_external : External := {|
  Key := SampleKey;
  Keyring := list SampleKey;
  encodeURIComponent := percent_encode;
  JSON_parse := parse_literal;
  fingerprint := sk_fingerprint;
  readArmored := fun block =>
    if decide (block = "") then [] else [{| sk_fingerprint := block; sk_owner := "" |}];
  getKeyByAddress := fun ring address => filter (fun k => sk_owner k = address) ring;
  removeKey := fun ring fp => filter (fun k => sk_fingerprint k ≠ fp) ring;
  unlockKey := fun k passphrase =>
    if decide (passphrase = Some "secret") then Fulfilled k
    else Rejected (ThrownError "Wrong password");
  sign := fun _ k =>
    if decide (sk_fingerprint k = "REVOKED") then Rejected (ThrownString "Key is revoked")
    else if decide (sk_fingerprint k = "CARD") then Rejected (ThrownString "404 card not present")
    else Fulfilled ("signed by " +:+ sk_fingerprint k)
|}.

Definition guarded_world (n : nat) (deliveries : list (list Answer))
    (typed : list (option string)) (keys : list SampleKey) : @World guarded_external :=
  @Build_World guarded_external deliveries typed 1512875000000
    (Fulfilled (cluster n)) keys None [].

(** ** The aggregation step *)

Lemma proxy_get_insert (m : gmap string Z) k n k' :
  proxy_get (<[k := n]> m) k' = if decide (k = k') then n else proxy_get m k'.
Proof.
  unfold proxy_get. rewrite lookup_insert. destruct (decide (k = k')); reflexivity.
Qed.

Lemma countOutcome_map F o st :
  responseMap (Signed.countOutcome F o st)
  = <[Signed.ResponseKey o := proxy_get (responseMap st) (Signed.ResponseKey o) + 1]> (responseMap st).
Proof. destruct o; simpl; case_match; reflexivity. Qed.

Lemma countOutcome_settled F o st :
  settled (Signed.countOutcome F o st)
  = settled st ++
    (if bool_decide (proxy_get (responseMap st) (Signed.ResponseKey o) + 1 = F + 1)
        && negb (promiseResolved st)
     then [verdict o] else []).
Proof.
  destruct o; simpl; rewrite ?proxy_get_insert, ?decide_True by done;
    case_match; simpl; rewrite ?app_nil_r; reflexivity.
Qed.

Lemma countOutcome_latch F o st :
  promiseResolved (Signed.countOutcome F o st)
  = promiseResolved st
    || bool_decide (proxy_get (responseMap st) (Signed.ResponseKey o) + 1 = F + 1).
Proof.
  destruct o; simpl; rewrite ?proxy_get_insert, ?decide_True by done;
    destruct (bool_decide _), (promiseResolved st); reflexivity.
Qed.

Lemma plain_countOutcome_map F o st :
  responseMap (Plain.countOutcome F o st)
  = <[Plain.ResponseKey o := proxy_get (responseMap st) (Plain.ResponseKey o) + 1]> (responseMap st).
Proof. destruct o; simpl; case_match; reflexivity. Qed.

Lemma plain_countOutcome_settled F o st :
  settled (Plain.countOutcome F o st)
  = settled st ++
    (if bool_decide (proxy_get (responseMap st) (Plain.ResponseKey o) + 1 = F + 1)
        && negb (promiseResolved st)
     then [plain_verdict o] else []).
Proof.
  destruct o; simpl; rewrite ?proxy_get_insert, ?decide_True by done;
    case_match; simpl; rewrite ?app_nil_r; reflexivity.
Qed.

Lemma plain_countOutcome_latch F o st :
  promiseResolved (Plain.countOutcome F o st)
  = promiseResolved st
    || bool_decide (proxy_get (responseMap st) (Plain.ResponseKey o) + 1 = F + 1).
Proof.
  destruct o; simpl; rewrite ?proxy_get_insert, ?decide_True by done;
    destruct (bool_decide _), (promiseResolved st); reflexivity.
Qed.

Section Aggregation.

(** A revision's key, the verdict of an outcome, and its callback, which
    advances the counter of the key and settles by the latch rule. *)
Variable key : NodeOutcome → string.
Variable outcome_verdict : NodeOutcome → QuorumResult.
Variable count : Z → NodeOutcome → BroadcastState → BroadcastState.

Hypothesis count_map : ∀ F o st,
  responseMap (count F o st)
  = <[key o := proxy_get (responseMap st) (key o) + 1]> (responseMap st).
Hypothesis count_settled : ∀ F o st,
  settled (count F o st)
  = settled st ++
    (if bool_decide (proxy_get (responseMap st) (key o) + 1 = F + 1) && negb (promiseResolved st)
     then [outcome_verdict o] else []).
Hypothesis count_latch : ∀ F o st,
  promiseResolved (count F o st)
  = promiseResolved st || bool_decide (proxy_get (responseMap st) (key o) + 1 = F + 1).

Lemma aggregate_snoc F outcomes o :
  aggregate count F (outcomes ++ [o]) = count F o (aggregate count F outcomes).
Proof. unfold aggregate. by rewrite foldl_app. Qed.

Lemma tally_snoc k outcomes o :
  tally key k (outcomes ++ [o])
  = tally key k outcomes + (if decide (key o = k) then 1 else 0).
Proof.
  unfold tally. rewrite filter_app, length_app, Nat2Z.inj_add. f_equal.
  rewrite filter_cons, filter_nil. by destruct (decide _).
Qed.

Lemma tally_take_le k n os : tally key k (take n os) ≤ tally key k os.
Proof.
  rewrite <-(take_drop n os) at 2. unfold tally.
  rewrite filter_app, length_app. lia.
Qed.

(** Every outcome is counted, whether or not the call is settled. *)
Lemma aggregate_counts F outcomes k :
  proxy_get (responseMap (aggregate count F outcomes)) k = tally key k outcomes.
Proof.
  induction outcomes as [|o outcomes IH] using rev_ind; [done|].
  rewrite aggregate_snoc, count_map, proxy_get_insert, tally_snoc.
  destruct (decide _) as [->|]; rewrite IH; lia.
Qed.

Lemma reaches_quorum_lt F os i o : reaches_quorum key F os i o → (i < length os)%nat.
Proof. intros [Hi _]. by eapply lookup_lt_Some. Qed.

Lemma reaches_quorum_snoc_old F os x i o :
  (i < length os)%nat → reaches_quorum key F (os ++ [x]) i o ↔ reaches_quorum key F os i o.
Proof.
  intros Hi. unfold reaches_quorum.
  rewrite lookup_app_l by done. rewrite take_app_le by lia. reflexivity.
Qed.

Lemma reaches_quorum_snoc_new F os x o :
  reaches_quorum key F (os ++ [x]) (length os) o
  ↔ o = x ∧ tally key (key x) os + 1 = F + 1.
Proof.
  unfold reaches_quorum. rewrite lookup_app_r by lia. rewrite Nat.sub_diag. simpl.
  rewrite take_ge by (rewrite length_app; simpl; lia).
  split.
  - intros [[= <-] Ht]. rewrite tally_snoc, decide_True in Ht by done. done.
  - intros [-> Ht]. rewrite tally_snoc, decide_True by done. done.
Qed.

Lemma reaches_quorum_take F os n i o :
  (i < n)%nat → reaches_quorum key F (take n os) i o ↔ reaches_quorum key F os i o.
Proof.
  intros Hi. unfold reaches_quorum.
  rewrite lookup_take_lt by done. rewrite take_take, Nat.min_l by lia. reflexivity.
Qed.

Lemma first_quorum_unique F os i o i' o' :
  reaches_quorum key F os i o → (∀ j x, (j < i)%nat → ¬ reaches_quorum key F os j x) →
  reaches_quorum key F os i' o' → (∀ j x, (j < i')%nat → ¬ reaches_quorum key F os j x) →
  i = i' ∧ o = o'.
Proof.
  intros Hq Hfirst Hq' Hfirst'.
  assert (i = i') as <-.
  { destruct (Nat.lt_trichotomy i i') as [Hlt|[Heq|Hlt]]; [|done|].
    - by destruct (Hfirst' _ _ Hlt Hq).
    - by destruct (Hfirst _ _ Hlt Hq'). }
  split; [done|]. destruct Hq as [Hq _], Hq' as [Hq' _]. congruence.
Qed.

(** The aggregation is unsettled while no outcome has completed a quorum, and
    from the first outcome that completes one it holds exactly that
    outcome's verdict. *)
Lemma aggregate_first_quorum F outcomes :
  (settled (aggregate count F outcomes) = []
   ∧ promiseResolved (aggregate count F outcomes) = false
   ∧ ∀ i o, ¬ reaches_quorum key F outcomes i o)
  ∨ (∃ i o, reaches_quorum key F outcomes i o
       ∧ (∀ j o', (j < i)%nat → ¬ reaches_quorum key F outcomes j o')
       ∧ settled (aggregate count F outcomes) = [outcome_verdict o]
       ∧ promiseResolved (aggregate count F outcomes) = true).
Proof.
  induction outcomes as [|x os IH] using rev_ind.
  - left. split_and!; try done. intros i o [Hi _]. by rewrite lookup_nil in Hi.
  - rewrite aggregate_snoc, count_settled, count_latch, aggregate_counts.
    destruct IH as [(Hs & Hl & Hno)|(i & o & Hq & Hfirst & Hs & Hl)]; rewrite Hs, Hl; simpl.
    + destruct (bool_decide_reflect (tally key (key x) os + 1 = F + 1)) as [Ht|Ht]; simpl.
      * right. exists (length os), x. split_and!; try done.
        -- by apply reaches_quorum_snoc_new.
        -- intros j o' Hj Hq. apply reaches_quorum_snoc_old in Hq; [|done]. by eapply Hno.
      * left. split_and!; try done. intros i o Hq.
        pose proof (reaches_quorum_lt _ _ _ _ Hq) as Hlt. rewrite length_app in Hlt. simpl in Hlt.
        destruct (decide (i = length os)) as [->|].
        -- apply reaches_quorum_snoc_new in Hq as [_ ?]. done.
        -- apply reaches_quorum_snoc_old in Hq; [|lia]. by eapply Hno.
    + right. exists i, o.
      pose proof (reaches_quorum_lt _ _ _ _ Hq) as Hlt.
      split_and!; try done.
      * by apply reaches_quorum_snoc_old.
      * intros j o' Hj Hq'. apply reaches_quorum_snoc_old in Hq'; [|lia]. by eapply Hfirst.
      * by rewrite andb_false_r.
Qed.

Lemma aggregate_before_quorum F os i :
  (∀ j x, (j < i)%nat → ¬ reaches_quorum key F os j x) →
  settled (aggregate count F (take i os)) = [].
Proof.
  intros Hfirst.
  destruct (aggregate_first_quorum F (take i os)) as [(Hs & _)|(j & x & Hq & _)]; [done|].
  pose proof (reaches_quorum_lt _ _ _ _ Hq) as Hlt. rewrite length_take in Hlt.
  apply reaches_quorum_take in Hq; [|lia]. destruct (Hfirst j x); [lia|done].
Qed.

Lemma aggregate_after_quorum F os i o n :
  reaches_quorum key F os i o → (∀ j x, (j < i)%nat → ¬ reaches_quorum key F os j x) →
  (i < n)%nat → settled (aggregate count F (take n os)) = [outcome_verdict o].
Proof.
  intros Hq Hfirst Hn.
  destruct (aggregate_first_quorum F (take n os))
    as [(_ & _ & Hno)|(i' & o' & Hq' & Hfirst' & Hs & _)].
  - destruct (Hno i o). by apply reaches_quorum_take.
  - pose proof (reaches_quorum_lt _ _ _ _ Hq') as Hlt. rewrite length_take in Hlt.
    apply reaches_quorum_take in Hq'; [|lia].
    destruct (first_quorum_unique F os i o i' o') as [-> ->]; try done.
    intros j x Hj Hqj. apply (Hfirst' j x Hj). apply reaches_quorum_take; [lia|done].
Qed.

(** The settlement of an aggregation, in one statement. *)
Lemma aggregate_settlement F outcomes :
  let final := aggregate count F outcomes in
  (length (settled final) ≤ 1)%nat
  ∧ (∀ k, proxy_get (responseMap final) k = tally key k outcomes)
  ∧ (settled final ≠ [] ↔ ∃ i o, reaches_quorum key F outcomes i o)
  ∧ (∀ i o,
       reaches_quorum key F outcomes i o →
       (∀ j o', (j < i)%nat → ¬ reaches_quorum key F outcomes j o') →
       settled (aggregate count F (take i outcomes)) = []
       ∧ (∀ n, (i < n)%nat → settled (aggregate count F (take n outcomes)) = [outcome_verdict o])
       ∧ settled final = [outcome_verdict o]).
Proof.
  intros final. split_and!.
  - destruct (aggregate_first_quorum F outcomes)
      as [(Hs & _)|(i & o & _ & _ & Hs & _)]; subst final; rewrite Hs; simpl; lia.
  - apply aggregate_counts.
  - destruct (aggregate_first_quorum F outcomes)
      as [(Hs & _ & Hno)|(i & o & Hq & _ & Hs & _)]; subst final; rewrite Hs.
    + split; [done|]. intros (i & o & Hq). by destruct (Hno i o).
    + split; [eauto|done].
  - intros i o Hq Hfirst. split_and!.
    + by apply aggregate_before_quorum.
    + intros n Hn. by eapply aggregate_after_quorum.
    + subst final. rewrite <-(take_ge outcomes (S (length outcomes))) by lia.
      eapply aggregate_after_quorum; [done..|].
      pose proof (reaches_quorum_lt _ _ _ _ Hq). lia.
Qed.

(** Without a quorum nothing is settled. *)
Lemma aggregate_split F outcomes :
  (∀ k, tally key k outcomes < F + 1) →
  settled (aggregate count F outcomes) = []
  ∧ promiseResolved (aggregate count F outcomes) = false.
Proof.
  intros Hsplit.
  destruct (aggregate_first_quorum F outcomes) as [(Hs & Hl & _)|(i & o & [_ Hq] & _)]; [done|].
  pose proof (tally_take_le (key o) (S i) outcomes).
  pose proof (Hsplit (key o)). lia.
Qed.

End Aggregation.

Lemma ceil_thirds n : 3 * (Math_ceil_div n 3 - 1) < n ≤ 3 * Math_ceil_div n 3.
Proof.
  unfold Math_ceil_div.
  pose proof (Z.div_mod (- n) 3 ltac:(lia)). pose proof (Z.mod_pos_bound (- n) 3 ltac:(lia)).
  lia.
Qed.

Lemma F_nonneg config : 0 ≤ F (constructor config).
Proof.
  pose proof (ceil_thirds (Z.of_nat (length (config_nodes config)) - 1)). simpl. lia.
Qed.

(** The cluster sizes 1, 4, 7 and 10 tolerate 0, 1, 2 and 3 faulty nodes. *)
Example fault_tolerance :
  map (fun n => F (constructor (cluster n))) [1; 4; 7; 10]%nat = [0; 1; 2; 3].
Proof. reflexivity. Qed.

Lemma fold_processResponse (readBody : Response → option NodeOutcome)
    (count : Z → NodeOutcome → BroadcastState → BroadcastState) F rs st :
  foldl (fun st r => match readBody r with Some o => count F o st | None => st end) st rs
  = foldl (fun st o => count F o st) st (omap readBody rs).
Proof.
  revert st. induction rs as [|r rs IH]; intros st; [done|]. simpl.
  destruct (readBody r); simpl; apply IH.
Qed.

(** A broadcast ends in the promise state of the aggregation of the votes it
    receives, whatever the path, method and body. *)
Lemma broadcast_is_aggregate `{External} this path method body w :
  (Signed._broadcast this path method body w).1
  = promise_of (aggregate Signed.countOutcome (F this) (votes Signed.readBody this w)).
Proof.
  unfold Signed._broadcast, fan_out, votes, aggregate.
  destruct (truthy method); simpl;
    by rewrite <-(fold_processResponse Signed.readBody Signed.countOutcome).
Qed.

Lemma plain_broadcast_is_aggregate `{External} this path method body w :
  (Plain._broadcast this path method body w).1
  = promise_of (aggregate Plain.countOutcome (F this) (votes Plain.readBody this w)).
Proof.
  unfold Plain._broadcast, fan_out, votes, aggregate.
  destruct body; simpl;
    by rewrite <-(fold_processResponse Plain.readBody Plain.countOutcome).
Qed.

(** ** Settlement of a broadcast *)

(** C1. In a cluster of N nodes the client holds F = ceil((N-1)/3): a
    broadcast ends in the promise state of its aggregation, which records at
    most one call of resolve or reject and counts every outcome. It is
    settled exactly if some outcome brings the counter of its key to F+1, and
    then by the first such outcome: nothing is settled before it, and from it
    on the record holds that outcome's verdict alone, so the call is fulfilled
    with the status, statusText and body of a Success outcome. A Failure
    outcome rejects the call with its key in the revision with the signed
    upload workflow; in the revision of pbftClient.js, which settles by the
    same rule, it rejects the call with its status and statusText separated
    by a space, a text that is not the key the outcome was counted under. *)
Theorem broadcast_settles_at_first_quorum `{External}
    (config : ClusterConfig) (path method : option string) (body : option Json)
    (text : option JsonText) (w : World) :
  let this := constructor config in
  let N := Z.of_nat (length (nodes this)) in
  let outcomes := votes Signed.readBody this w in
  let final := aggregate Signed.countOutcome (F this) outcomes in
  let plain_outcomes := votes Plain.readBody this w in
  let plain_final := aggregate Plain.countOutcome (F this) plain_outcomes in
  3 * (F this - 1) < N - 1 ≤ 3 * F this
  ∧ (Signed._broadcast this path method body w).1 = promise_of final
  ∧ (length (settled final) ≤ 1)%nat
  ∧ (∀ k, proxy_get (responseMap final) k = tally Signed.ResponseKey k outcomes)
  ∧ (settled final ≠ [] ↔ ∃ i o, reaches_quorum Signed.ResponseKey (F this) outcomes i o)
  ∧ (∀ i o,
       reaches_quorum Signed.ResponseKey (F this) outcomes i o →
       (∀ j o', (j < i)%nat → ¬ reaches_quorum Signed.ResponseKey (F this) outcomes j o') →
       settled (aggregate Signed.countOutcome (F this) (take i outcomes)) = []
       ∧ (∀ n, (i < n)%nat →
            settled (aggregate Signed.countOutcome (F this) (take n outcomes)) = [verdict o])
       ∧ promise_of final
         = match o with
           | Success code reason answer =>
               Fulfilled {| res_status := code; res_statusText := reason; res_body := answer |}
           | Failure _ _ _ => Rejected (ThrownString (Signed.ResponseKey o))
           end)
  ∧ (Plain._broadcast this path method text w).1 = promise_of plain_final
  ∧ (length (settled plain_final) ≤ 1)%nat
  ∧ (∀ k, proxy_get (responseMap plain_final) k = tally Plain.ResponseKey k plain_outcomes)
  ∧ (settled plain_final ≠ []
     ↔ ∃ i o, reaches_quorum Plain.ResponseKey (F this) plain_outcomes i o)
  ∧ (∀ i o,
       reaches_quorum Plain.ResponseKey (F this) plain_outcomes i o →
       (∀ j o', (j < i)%nat → ¬ reaches_quorum Plain.ResponseKey (F this) plain_outcomes j o') →
       settled (aggregate Plain.countOutcome (F this) (take i plain_outcomes)) = []
       ∧ (∀ n, (i < n)%nat →
            settled (aggregate Plain.countOutcome (F this) (take n plain_outcomes))
            = [plain_verdict o])
       ∧ promise_of plain_final
         = match o with
           | Success code reason answer =>
               Fulfilled {| res_status := code; res_statusText := reason; res_body := answer |}
           | Failure code reason _ =>
               Rejected (ThrownString (tpl_num code +:+ " " +:+ tpl_str reason))
           end).
Proof.
  intros this N outcomes final plain_outcomes plain_final.
  destruct (aggregate_settlement Signed.ResponseKey verdict Signed.countOutcome
              countOutcome_map countOutcome_settled countOutcome_latch (F this) outcomes)
    as (Hlen & Hcount & Hiff & Hfirst).
  destruct (aggregate_settlement Plain.ResponseKey plain_verdict Plain.countOutcome
              plain_countOutcome_map plain_countOutcome_settled plain_countOutcome_latch
              (F this) plain_outcomes)
    as (Hlen' & Hcount' & Hiff' & Hfirst').
  split_and!; try done.
  - apply (ceil_thirds (N - 1)).
  - apply (ceil_thirds (N - 1)).
  - apply broadcast_is_aggregate.
  - intros i o Hq Hmin. destruct (Hfirst i o Hq Hmin) as (Hbefore & Hafter & Hfinal).
    split_and!; try done.
    unfold promise_of. fold final in Hfinal. rewrite Hfinal. by destruct o.
  - apply plain_broadcast_is_aggregate.
  - intros i o Hq Hmin. destruct (Hfirst' i o Hq Hmin) as (Hbefore & Hafter & Hfinal).
    split_and!; try done.
    unfold promise_of. fold plain_final in Hfinal. rewrite Hfinal. by destruct o.
Qed.

(** The quorum-reached scenario: four nodes, the second "X" is counted third. *)
Lemma broadcast_settles_at_first_quorum_witness :
  (Signed._broadcast (constructor (cluster 4)) (Some "?name=a") None None
     (sample_world 4 [[found "X"; found "Y"; found "X"; Silent]] [] [])).1
  = Fulfilled {| res_status := Some 200%N; res_statusText := Some "OK"; res_body := JStr "X" |}.
Proof.
  destruct (broadcast_settles_at_first_quorum (cluster 4) (Some "?name=a") None None None
              (sample_world 4 [[found "X"; found "Y"; found "X"; Silent]] [] []))
    as (_ & Hb & _ & _ & _ & Hq & _).
  rewrite Hb.
  destruct (Hq 2%nat (Success (Some 200%N) (Some "OK") (JStr "X"))) as (_ & _ & ->).
  - split; vm_compute; reflexivity.
  - intros j o' Hj [Hl Ht].
    destruct j as [|[|j]]; [| |lia]; vm_compute in Hl; inversion Hl; subst o';
      vm_compute in Ht; discriminate Ht.
  - reflexivity.
Defined.

(** In the revision of pbftClient.js a Failure outcome that completes the
    first quorum does not reject the call with its key: one node answers
    "404 Not Found", the outcome is counted under "404Not Found" and the
    call is rejected with "404 Not Found". *)
Lemma plain_failure_is_not_rejected_with_its_key :
  ¬ (∀ (this : PBFTClient) (path : option string) (w : @World sample_external)
       (i : nat) (code : option N) (reason : option string) (page : string),
       reaches_quorum Plain.ResponseKey (F this) (votes Plain.readBody this w) i
         (Failure code reason page) →
       (∀ j o, (j < i)%nat →
          ¬ reaches_quorum Plain.ResponseKey (F this) (votes Plain.readBody this w) j o) →
       (Plain._broadcast this path None None w).1
       = Rejected (ThrownString (Plain.ResponseKey (Failure code reason page)))).
Proof.
  intros Hclaim.
  specialize (Hclaim (constructor (cluster 1)) (Some "?name=a")
                (sample_world 1 [[refused 404 "Not Found" "no such key"]] [] [])
                0%nat (Some 404%N) (Some "Not Found") "").
  assert ((Plain._broadcast (constructor (cluster 1)) (Some "?name=a") None None
             (sample_world 1 [[refused 404 "Not Found" "no such key"]] [] [])).1
          = Rejected (ThrownString "404 Not Found")) as Hrun by reflexivity.
  rewrite Hrun in Hclaim.
  assert (Plain.ResponseKey (Failure (Some 404%N) (Some "Not Found") "") = "404Not Found")
    as Hkey by reflexivity.
  rewrite Hkey in Hclaim.
  discriminate Hclaim.
  - split; reflexivity.
  - intros j o Hj. lia.
Qed.

(** The quorum-reached scenario in every order of arrival: four nodes
    answer X, X, Y and not at all, and the call is fulfilled with X. *)
Example quorum_reached_in_any_order :
  Forall (fun script =>
            (Signed._broadcast (constructor (cluster 4)) (Some "?name=a") None None
               (sample_world 4 [script] [] [])).1
            = Fulfilled {| res_status := Some 200%N; res_statusText := Some "OK";
                           res_body := JStr "X" |})
    (permutations [found "X"; found "X"; found "Y"; Silent]).
Proof.
  match goal with |- Forall ?P ?l =>
    let l' := eval vm_compute in l in change (Forall P l')
  end.
  repeat (constructor; [vm_compute; reflexivity|]). constructor.
Qed.

(** The revision of pbftClient.js settles by the same rule on its own keys;
    a failure that completes the quorum rejects the call with status and
    statusText separated by a space, which is not the key it was counted
    under. *)
Lemma plain_broadcast_settles_at_first_quorum `{External}
    (this : PBFTClient) (path method : option string) (body : option JsonText) (w : World) :
  let outcomes := votes Plain.readBody this w in
  let final := aggregate Plain.countOutcome (F this) outcomes in
  (Plain._broadcast this path method body w).1 = promise_of final
  ∧ (length (settled final) ≤ 1)%nat
  ∧ (∀ k, proxy_get (responseMap final) k = tally Plain.ResponseKey k outcomes)
  ∧ (settled final ≠ [] ↔ ∃ i o, reaches_quorum Plain.ResponseKey (F this) outcomes i o)
  ∧ (∀ i o,
       reaches_quorum Plain.ResponseKey (F this) outcomes i o →
       (∀ j o', (j < i)%nat → ¬ reaches_quorum Plain.ResponseKey (F this) outcomes j o') →
       promise_of final
       = match o with
         | Success code reason answer =>
             Fulfilled {| res_status := code; res_statusText := reason; res_body := answer |}
         | Failure code reason _ =>
             Rejected (ThrownString (tpl_num code +:+ " " +:+ tpl_str reason))
         end).
Proof.
  intros outcomes final.
  destruct (aggregate_settlement Plain.ResponseKey plain_verdict Plain.countOutcome
              plain_countOutcome_map plain_countOutcome_settled plain_countOutcome_latch
              (F this) outcomes)
    as (Hlen & Hcount & Hiff & Hfirst).
  split_and!; try done.
  - apply plain_broadcast_is_aggregate.
  - intros i o Hq Hmin. destruct (Hfirst i o Hq Hmin) as (_ & _ & Hfinal).
    unfold promise_of. fold final in Hfinal. rewrite Hfinal. by destruct o.
Qed.

(** The same for the signed revision and any client object. *)
Lemma broadcast_settlement_signed `{External}
    (this : PBFTClient) (path method : option string) (body : option Json) (w : World) :
  let outcomes := votes Signed.readBody this w in
  let final := aggregate Signed.countOutcome (F this) outcomes in
  (Signed._broadcast this path method body w).1 = promise_of final
  ∧ (∀ k, proxy_get (responseMap final) k = tally Signed.ResponseKey k outcomes)
  ∧ (∀ i o,
       reaches_quorum Signed.ResponseKey (F this) outcomes i o →
       (∀ j o', (j < i)%nat → ¬ reaches_quorum Signed.ResponseKey (F this) outcomes j o') →
       promise_of final
       = match o with
         | Success code reason answer =>
             Fulfilled {| res_status := code; res_statusText := reason; res_body := answer |}
         | Failure _ _ _ => Rejected (ThrownString (Signed.ResponseKey o))
         end).
Proof.
  intros outcomes final.
  destruct (aggregate_settlement Signed.ResponseKey verdict Signed.countOutcome
              countOutcome_map countOutcome_settled countOutcome_latch (F this) outcomes)
    as (_ & Hcount & _ & Hfirst).
  split_and!; try done.
  - apply broadcast_is_aggregate.
  - intros i o Hq Hmin. destruct (Hfirst i o Hq Hmin) as (_ & _ & Hfinal).
    unfold promise_of. fold final in Hfinal. rewrite Hfinal. by destruct o.
Qed.

(** C2. When the outcomes are split so that no key is counted F+1 times, the
    broadcast is never settled: the promise stays pending, neither resolve
    nor reject has been called and the latch is still open. *)
Theorem broadcast_pending_without_quorum `{External}
    (config : ClusterConfig) (path method : option string) (body : option Json) (w : World) :
  let this := constructor config in
  let outcomes := votes Signed.readBody this w in
  (∀ k, tally Signed.ResponseKey k outcomes < F this + 1) →
  (Signed._broadcast this path method body w).1 = Pending
  ∧ settled (aggregate Signed.countOutcome (F this) outcomes) = []
  ∧ promiseResolved (aggregate Signed.countOutcome (F this) outcomes) = false.
Proof.
  intros this outcomes Hsplit.
  destruct (aggregate_split Signed.ResponseKey verdict Signed.countOutcome
              countOutcome_map countOutcome_settled countOutcome_latch (F this) outcomes Hsplit)
    as [Hs Hl].
  split_and!; try done.
  rewrite broadcast_is_aggregate. unfold promise_of. fold outcomes. by rewrite Hs.
Qed.

(** The indeterminate-split scenario: four nodes, F = 1, four distinct keys. *)
Lemma broadcast_pending_without_quorum_witness :
  (Signed._broadcast (constructor (cluster 4)) (Some "?name=a") None None
     (sample_world 4 [[found "X"; found "Y"; found "Z"; Silent]] [] [])).1
  = Pending.
Proof.
  apply (broadcast_pending_without_quorum (cluster 4) (Some "?name=a") None None
           (sample_world 4 [[found "X"; found "Y"; found "Z"; Silent]] [] [])).
  intros k. unfold tally.
  change (votes _ _ _) with
    [Success (Some 200%N) (Some "OK") (JStr "X"); Success (Some 200%N) (Some "OK") (JStr "Y");
     Success (Some 200%N) (Some "OK") (JStr "Z"); Failure (Some 520%N) (Some "Request Timeout") ""].
  change (F _) with 1.
  rewrite !filter_cons, filter_nil.
  change (Signed.ResponseKey (Success (Some 200%N) (Some "OK") (JStr "X"))) with "200 OK X".
  change (Signed.ResponseKey (Success (Some 200%N) (Some "OK") (JStr "Y"))) with "200 OK Y".
  change (Signed.ResponseKey (Success (Some 200%N) (Some "OK") (JStr "Z"))) with "200 OK Z".
  change (Signed.ResponseKey (Failure (Some 520%N) (Some "Request Timeout") "")) with "520 Request Timeout ".
  repeat case_decide; subst; simpl; try lia; discriminate.
Defined.

(** ** Keys *)

Lemma has_space_app s t : has_space (s +:+ t) = has_space s || has_space t.
Proof. induction s as [|a s IH]; simpl; [done|]. by rewrite IH, orb_assoc. Qed.

Lemma pretty_N_go_no_space x s : has_space (pretty_N_go x s) = has_space s.
Proof.
  revert s. induction (N.lt_wf_0 x) as [x _ IH]; intros s.
  destruct (decide (x = 0)%N) as [->|]; [by rewrite pretty_N_go_0|].
  rewrite pretty_N_go_step by lia. rewrite IH by (apply N.div_lt; lia).
  simpl. unfold pretty_N_char. by repeat case_match.
Qed.

Lemma tpl_num_no_space code : has_space (tpl_num code) = false.
Proof.
  destruct code as [n|]; [|done]. unfold tpl_num, pretty, pretty_N.
  case_decide; [done|]. by rewrite pretty_N_go_no_space.
Qed.

(** Two texts without a space, each followed by a space and a rest, make the
    same text only if they are the same and the rests are. *)
Lemma split_at_space a1 a2 r1 r2 :
  has_space a1 = false → has_space a2 = false →
  a1 +:+ " " +:+ r1 = a2 +:+ " " +:+ r2 → a1 = a2 ∧ r1 = r2.
Proof.
  revert a2. induction a1 as [|c a1 IH]; intros [|c' a2]; simpl; intros H1 H2 Heq.
  - by simplify_eq.
  - by simplify_eq.
  - by simplify_eq.
  - apply orb_false_iff in H1 as [_ H1]. apply orb_false_iff in H2 as [_ H2].
    injection Heq as -> Heq. destruct (IH a2 H1 H2 Heq) as [-> ->]. done.
Qed.

Lemma ResponseKey_rendered o :
  Signed.ResponseKey o = (rendered o).1.1 +:+ " " +:+ (rendered o).1.2 +:+ " " +:+ (rendered o).2.
Proof. by destruct o. Qed.

Lemma same_counter_iff_same_key (m : gmap string Z) (k1 k2 : string) :
  <[k1 := proxy_get m k1 + 1]> m = <[k2 := proxy_get m k2 + 1]> m ↔ k1 = k2.
Proof.
  split; [|by intros ->].
  intros Hmap. destruct (decide (k1 = k2)) as [|Hne]; [done|].
  apply (f_equal (fun m => m !! k1)) in Hmap.
  rewrite lookup_insert_eq, lookup_insert_ne in Hmap by done.
  unfold proxy_get in Hmap. destruct (m !! k1); simplify_eq; lia.
Qed.

(** C3. Two outcomes are the same vote, that is they advance the same
    counter of the response map, exactly if their keys are the same text, in
    both revisions. The key of the signed revision is the status, the
    statusText and the body, as texts, joined by single spaces and compared
    as is: outcomes that agree on the three texts share a key, and when
    neither statusText contains a space, outcomes that share a key agree on
    the three texts. *)
Theorem same_vote_iff_same_key (o1 o2 : NodeOutcome) :
  (∀ F st,
     responseMap (Signed.countOutcome F o1 st) = responseMap (Signed.countOutcome F o2 st)
     ↔ Signed.ResponseKey o1 = Signed.ResponseKey o2)
  ∧ (∀ F st,
       responseMap (Plain.countOutcome F o1 st) = responseMap (Plain.countOutcome F o2 st)
       ↔ Plain.ResponseKey o1 = Plain.ResponseKey o2)
  ∧ (rendered o1 = rendered o2 → Signed.ResponseKey o1 = Signed.ResponseKey o2)
  ∧ (has_space (rendered o1).1.2 = false → has_space (rendered o2).1.2 = false →
     Signed.ResponseKey o1 = Signed.ResponseKey o2 → rendered o1 = rendered o2).
Proof.
  split_and!.
  - intros F st. rewrite !countOutcome_map. apply same_counter_iff_same_key.
  - intros F st. rewrite !plain_countOutcome_map. apply same_counter_iff_same_key.
  - rewrite !ResponseKey_rendered. by intros ->.
  - rewrite !ResponseKey_rendered.
    destruct (rendered o1) as [[c1 t1] b1] eqn:E1, (rendered o2) as [[c2 t2] b2] eqn:E2. simpl.
    intros Ht1 Ht2 Hkey.
    assert (has_space c1 = false) as Hc1.
    { replace c1 with (rendered o1).1.1 by by rewrite E1. destruct o1; apply tpl_num_no_space. }
    assert (has_space c2 = false) as Hc2.
    { replace c2 with (rendered o2).1.1 by by rewrite E2. destruct o2; apply tpl_num_no_space. }
    apply split_at_space in Hkey as [-> Hkey]; [|done..].
    apply split_at_space in Hkey as [-> ->]; done.
Qed.

(** A text body and a number body with the same string form: one key, and
    the same three texts. *)
Lemma same_vote_iff_same_key_witness :
  rendered (Success (Some 200%N) (Some "OK") (JStr "7"))
  = rendered (Success (Some 200%N) (Some "OK") (JNum 7)).
Proof.
  apply (same_vote_iff_same_key (Success (Some 200%N) (Some "OK") (JStr "7"))
           (Success (Some 200%N) (Some "OK") (JNum 7))); reflexivity.
Defined.

(** Against the reading that outcomes differing in a field never share a
    key: two failures that differ in statusText and in body, with one key. *)
Lemma distinct_outcomes_share_key :
  ¬ (∀ o1 o2 : NodeOutcome, o1 ≠ o2 → Signed.ResponseKey o1 ≠ Signed.ResponseKey o2).
Proof.
  intros Hinj.
  apply (Hinj (Failure (Some 404%N) (Some "Not") "Found x")
              (Failure (Some 404%N) (Some "Not Found") "x")); [discriminate|reflexivity].
Qed.

(** Two successes whose bodies are different objects have one key as well. *)
Example objects_share_key :
  Signed.ResponseKey (Success (Some 200%N) (Some "OK") (JObj [("key", JStr "A")]))
  = Signed.ResponseKey (Success (Some 200%N) (Some "OK") (JObj [("key", JStr "B")])).
Proof. reflexivity. Qed.

(** The key of pbftClient.js has no separators: the body "1" after the
    statusText "OK" reads as the empty body after the statusText "OK1". *)
Example plain_key_has_no_separators :
  Plain.ResponseKey (Success (Some 200%N) (Some "OK") (JStr "1"))
  = Plain.ResponseKey (Success (Some 200%N) (Some "OK1") (JStr "")).
Proof. reflexivity. Qed.

(** ** Timeouts *)


Lemma processResponse_timeout F st :
  Signed.processResponse F st timeoutObject
  = Signed.countOutcome F (Failure (Some 520%N) (Some "Request Timeout") "") st.
Proof. reflexivity. Qed.



(** In a cluster of one node F is 0 and one vote is a quorum: the timeout of
    that node rejects the call. *)
Example single_node_timeout :
  (Signed._broadcast (constructor (cluster 1)) (Some "?name=a") None None
     (sample_world 1 [[Silent]] [] [])).1
  = Rejected (ThrownString "520 Request Timeout ").
Proof. reflexivity. Qed.

(** A node that cannot be reached makes [fetch] reject with an error that has
    no status: it is counted as a failure under the key of two "undefined". *)
Example unreachable_node_vote :
  Signed.readBody (race (Answers 3 fetchError)) = Some (Failure None None "")
  ∧ Signed.ResponseKey (Failure None None "") = "undefined undefined ".
Proof. split; reflexivity. Qed.

(** With at least two nodes one timeout alone leaves the call pending. *)
Lemma lone_timeout_pending F :
  1 ≤ F → promise_of (Signed.processResponse F fresh timeoutObject) = Pending.
Proof.
  intros HF. unfold promise_of. rewrite processResponse_timeout, countOutcome_settled. simpl.
  rewrite bool_decide_eq_false_2; [done|]. unfold proxy_get. rewrite lookup_empty. lia.
Qed.

(** ** What a broadcast leaves alone *)

Lemma result_and_world {A B} (x : A * B) (a : A) : x.1 = a → x = (a, x.2).
Proof. intros <-. by destruct x. Qed.

Lemma config_fetches_app t1 t2 :
  config_fetches (t1 ++ t2) = (config_fetches t1 + config_fetches t2)%nat.
Proof. unfold config_fetches. by rewrite List.filter_app, length_app. Qed.

Lemma config_fetches_requests (nodes : list Node) (url : Node → string) method body :
  config_fetches (map (fun node => EvFetch (url node) method body) nodes) = 0%nat.
Proof. induction nodes; [done|]. simpl. done. Qed.

(** A fan-out reads one delivery list and records one request per node; the
    key ring, the wrapper's field, the configuration document and the number
    of configuration fetches stay as they are. *)
Lemma fan_out_frame `{External} process this path method body w :
  let w' := (fan_out process this path method body w).2 in
  ring w' = ring w ∧ _pbftClient w' = _pbftClient w ∧ cluster_json w' = cluster_json w
  ∧ answers w' = answers w ∧ clock w' = clock w
  ∧ trace w' = trace w ++ map (fun node => EvFetch (node_url path node) method body) (nodes this)
  ∧ config_fetches (trace w') = config_fetches (trace w).
Proof.
  simpl. split_and!; try reflexivity.
  rewrite config_fetches_app.
  rewrite config_fetches_requests. lia.
Qed.

Lemma Plain_lookup_frame `{External} this address w :
  let w' := (Plain.lookup this address w).2 in
  _pbftClient w' = _pbftClient w ∧ config_fetches (trace w') = config_fetches (trace w).
Proof.
  unfold Plain.lookup, Plain._broadcast, then_, catch_, resolve, throw.
  destruct (fan_out_frame (Plain.processResponse (F this)) this (_path address) "GET" None w)
    as (_ & Hc & _ & _ & _ & _ & Ht).
  destruct (fan_out _ _ _ _ _ w) as [[| |] w']; simpl in *; done.
Qed.

Lemma Plain_upload_frame `{External} this options w :
  let w' := (Plain.upload this options w).2 in
  _pbftClient w' = _pbftClient w ∧ config_fetches (trace w') = config_fetches (trace w).
Proof.
  unfold Plain.upload, Plain._broadcast, then_, catch_, resolve, throw.
  match goal with |- context [fan_out ?p ?t ?pa ?m ?b w] =>
    destruct (fan_out_frame p t pa m b w) as (_ & Hc & _ & _ & _ & _ & Ht);
    destruct (fan_out p t pa m b w) as [[| |] w']; simpl in *; done
  end.
Qed.

(** ** The wrapper *)

Lemma getPBFTClient_uncached `{External} w :
  _pbftClient w = None →
  let w' := (KeyServer.getPBFTClient w).2 in
  w' = emit [EvFetchConfig] w
  ∧ (KeyServer.getPBFTClient w).1
    = match cluster_json w with
      | Fulfilled config => Fulfilled (constructor config)
      | Rejected e => Rejected e
      | Pending => Pending
      end.
Proof.
  intros Hnone. unfold KeyServer.getPBFTClient. rewrite Hnone.
  unfold then_, await, resolve. simpl. by destruct (cluster_json w).
Qed.

Lemma run_call_uncached `{External} c w :
  _pbftClient w = None →
  _pbftClient (run_call c w) = None
  ∧ config_fetches (trace (run_call c w))
    = (config_fetches (trace w) + (if needs_client c then 1 else 0))%nat.
Proof.
  intros Hnone.
  destruct (getPBFTClient_uncached w Hnone) as [Hw _].
  assert (_pbftClient (emit [EvFetchConfig] w) = None) as Hnone' by done.
  assert (config_fetches (trace (emit [EvFetchConfig] w)) = (config_fetches (trace w) + 1)%nat)
    as Hcount by (simpl; by rewrite config_fetches_app).
  destruct c as [options|options]; simpl.
  - unfold KeyServer.lookup. destruct (truthy (KeyServer.by_email options)); simpl.
    + unfold then_ at 2. unfold catch_, then_.
      destruct (KeyServer.getPBFTClient w) as [[|client|e] w1]; simpl in Hw; subst w1;
        [by split| |by split].
      destruct (Plain_lookup_frame client (tpl_str (KeyServer.by_email options))
                  (emit [EvFetchConfig] w)) as [Hc Ht].
      rewrite <-Hc in Hnone'. rewrite <-Ht in Hcount.
      destruct (Plain.lookup client _ _) as [[|r|e] w2]; [by split| |by split].
      unfold resolve, throw. by destruct (JSON_parse _).
    + split; [done|lia].
  - unfold KeyServer.upload, then_.
    destruct (KeyServer.getPBFTClient w) as [[|client|e] w1]; simpl in Hw; subst w1;
      [by split| |by split].
    destruct (Plain_upload_frame client options (emit [EvFetchConfig] w)) as [Hc Ht].
    rewrite <-Hc in Hnone'. rewrite <-Ht in Hcount. by split.
Qed.

(** C6, as the code has it. [getPBFTClient] tests the field [_pbftClient] but
    nothing assigns it: on a fresh [KeyServer] the field is still unset after
    any sequence of lookups and uploads, and every call that needs the client
    fetches the configuration document again. *)
Theorem config_is_fetched_by_every_call `{External} (cs : list Call) (w : World) :
  _pbftClient w = None →
  _pbftClient (run_calls cs w) = None
  ∧ config_fetches (trace (run_calls cs w))
    = (config_fetches (trace w) + length (List.filter needs_client cs))%nat.
Proof.
  revert w. induction cs as [|c cs IH]; intros w Hnone; simpl.
  - split; [done|lia].
  - destruct (run_call_uncached c w Hnone) as [Hnone' Hcount].
    destruct (IH _ Hnone') as [Hn Ht]. unfold run_calls in *.
    split; [done|]. rewrite Ht, Hcount. destruct (needs_client c); simpl; lia.
Qed.

(** Two lookups of the same address, both answered: two fetches of the
    configuration. *)
Lemma config_is_fetched_by_every_call_witness :
  let options := {| KeyServer.by_email := Some "a@b.c"; KeyServer.by_keyId := None;
                    KeyServer.by_fingerprint := None |} in
  let w := sample_world 1 [[found "true"]; [found "true"]] [] [] in
  config_fetches (trace (run_calls [CallLookup options; CallLookup options] w)) = 2%nat.
Proof.
  intros options w.
  apply (config_is_fetched_by_every_call [CallLookup options; CallLookup options] w).
  reflexivity.
Defined.

(** C7. For an identity that is missing or the empty text, [KeyServer.lookup]
    rejects at once with its message and leaves the world as it found it: the
    configuration is not fetched and no request goes to any node. *)
Theorem lookup_rejects_empty_identity `{External} (options : KeyServer.LookupOptions) (w : World) :
  KeyServer.by_email options = None ∨ KeyServer.by_email options = Some "" →
  KeyServer.lookup options w
  = (Rejected (ThrownString "Only lookup by email is currently supported by PBFT"), w)
  ∧ trace (KeyServer.lookup options w).2 = trace w
  ∧ inbox (KeyServer.lookup options w).2 = inbox w.
Proof.
  intros Hempty. unfold KeyServer.lookup.
  assert (truthy (KeyServer.by_email options) = false) as -> by (by destruct Hempty as [->| ->]).
  done.
Qed.

Lemma lookup_rejects_empty_identity_witness :
  let options := {| KeyServer.by_email := Some ""; KeyServer.by_keyId := Some "0123456789ABCDEF";
                    KeyServer.by_fingerprint := None |} in
  let w := sample_world 4 [[found "X"; found "X"; found "X"; found "X"]] [] [] in
  trace (KeyServer.lookup options w).2 = [].
Proof.
  intros options w.
  apply (lookup_rejects_empty_identity options w). by right.
Defined.

(** The client's own [lookup] has no such guard: for the empty address
    [_path] is [null] and the request goes out with the path "null". *)
Example client_lookup_of_empty_address :
  trace (Signed.lookup (constructor (cluster 1)) "" (sample_world 1 [[Silent]] [] [])).2
  = [EvFetch "http://node0:8000null" "GET" None].
Proof. reflexivity. Qed.

(** ** Quorum failures seen through lookup *)

Lemma Signed_lookup_rejected `{External} this address w e :
  (Signed._broadcast this (_path address) None None w).1 = Rejected e →
  Signed.lookup this address w
  = (Rejected e, (Signed._broadcast this (_path address) None None w).2).
Proof.
  intros Hb. unfold Signed.lookup, then_, catch_, throw.
  by rewrite (result_and_world _ _ Hb).
Qed.

Lemma Plain_lookup_rejected `{External} this address w e :
  (Plain._broadcast this (_path address) None None w).1 = Rejected e →
  Plain.lookup this address w
  = (Rejected e, (Plain._broadcast this (_path address) None None w).2).
Proof.
  intros Hb. unfold Plain.lookup, then_, catch_, throw.
  by rewrite (result_and_world _ _ Hb).
Qed.

Lemma KeyServer_lookup_settles_fulfilled `{External} options w :
  truthy (KeyServer.by_email options) = true →
  (KeyServer.lookup options w).1 = Pending
  ∨ ∃ answer, (KeyServer.lookup options w).1 = Fulfilled answer.
Proof.
  intros Ht. unfold KeyServer.lookup. rewrite Ht. simpl. unfold catch_, resolve.
  match goal with |- context [match ?p with _ => _ end] => destruct p as [[| |] ?] end;
    simpl; eauto.
Qed.

(** C4. When a Failure outcome with status, statusText and body completes
    the first quorum, the lookup of the signed revision rejects with the text
    made of the three, separated by single spaces, as the broadcast did, and
    touches nothing else. The lookup of pbftClient.js, whose failures carry
    no body, rejects in the same way with status and statusText.
    [KeyServer.lookup] does not hand a rejection on: for a non-empty address
    it ends pending or fulfilled, and it is fulfilled with undefined whenever
    the lookup of its client rejects. *)
Theorem lookup_quorum_failure `{External} (this : PBFTClient) (address : string) (w : World)
    (i : nat) (code : option N) (reason : option string) (body : string) :
  (reaches_quorum Signed.ResponseKey (F this) (votes Signed.readBody this w) i
     (Failure code reason body) →
   (∀ j o, (j < i)%nat →
      ¬ reaches_quorum Signed.ResponseKey (F this) (votes Signed.readBody this w) j o) →
   Signed.lookup this address w
   = (Rejected (ThrownString (tpl_num code +:+ " " +:+ tpl_str reason +:+ " " +:+ body)),
      (Signed._broadcast this (_path address) None None w).2))
  ∧ (reaches_quorum Plain.ResponseKey (F this) (votes Plain.readBody this w) i
       (Failure code reason body) →
     (∀ j o, (j < i)%nat →
        ¬ reaches_quorum Plain.ResponseKey (F this) (votes Plain.readBody this w) j o) →
     Plain.lookup this address w
     = (Rejected (ThrownString (tpl_num code +:+ " " +:+ tpl_str reason)),
        (Plain._broadcast this (_path address) None None w).2))
  ∧ (∀ options, truthy (KeyServer.by_email options) = true →
       ((KeyServer.lookup options w).1 = Pending
        ∨ ∃ answer, (KeyServer.lookup options w).1 = Fulfilled answer)
       ∧ ∀ client e,
           (KeyServer.getPBFTClient w).1 = Fulfilled client →
           (Plain.lookup client (tpl_str (KeyServer.by_email options))
              (KeyServer.getPBFTClient w).2).1 = Rejected e →
           (KeyServer.lookup options w).1 = Fulfilled None).
Proof.
  split_and!.
  - intros Hq Hfirst. apply Signed_lookup_rejected.
    destruct (broadcast_settlement_signed this (_path address) None None w) as (-> & _ & Hsettle).
    by rewrite (Hsettle i _ Hq Hfirst).
  - intros Hq Hfirst. apply Plain_lookup_rejected.
    destruct (plain_broadcast_settles_at_first_quorum this (_path address) None None w)
      as (-> & _ & _ & _ & Hsettle).
    by rewrite (Hsettle i _ Hq Hfirst).
  - intros options Ht. split; [by apply KeyServer_lookup_settles_fulfilled|].
    intros client e Hc Hl. unfold KeyServer.lookup. rewrite Ht. simpl.
    unfold then_ at 2. unfold catch_, then_, resolve.
    destruct (KeyServer.getPBFTClient w) as [p w1]. simpl in *. subst p.
    destruct (Plain.lookup client _ w1) as [p w2]. simpl in *. by subst p.
Qed.

(** One node, which answers the lookup with "404 Not Found". *)
Lemma lookup_quorum_failure_witness :
  Signed.lookup (constructor (cluster 1)) "a@b.c"
    (sample_world 1 [[refused 404 "Not Found" "no such key"]] [] [])
  = (Rejected (ThrownString "404 Not Found no such key"),
     (Signed._broadcast (constructor (cluster 1)) (_path (H:=sample_external) "a@b.c") None None
        (sample_world 1 [[refused 404 "Not Found" "no such key"]] [] [])).2).
Proof.
  destruct (lookup_quorum_failure (constructor (cluster 1)) "a@b.c"
              (sample_world 1 [[refused 404 "Not Found" "no such key"]] [] [])
              0%nat (Some 404%N) (Some "Not Found") "no such key") as (Hsigned & _ & _).
  apply Hsigned.
  - split; vm_compute; reflexivity.
  - intros j o Hj. lia.
Defined.

(** Against the reading that the wrapper's lookup rejects: one node answers
    "404 Not Found", the client's lookup rejects with the quorum failure, and
    [KeyServer.lookup] is fulfilled with undefined. *)
Lemma wrapper_lookup_swallows_quorum_failure :
  let options := {| KeyServer.by_email := Some "a@b.c"; KeyServer.by_keyId := None;
                    KeyServer.by_fingerprint := None |} in
  let w := sample_world 1 [[refused 404 "Not Found" "no such key"]] [] [] in
  (Plain.lookup (constructor (cluster 1)) "a@b.c" (KeyServer.getPBFTClient w).2).1
  = Rejected (ThrownString "404 Not Found")
  ∧ (KeyServer.lookup options w).1 = Fulfilled None
  ∧ ∀ e, (KeyServer.lookup options w).1 ≠ Rejected e.
Proof. split_and!; [reflexivity|reflexivity|discriminate]. Qed.

(** ** The upload workflow of the signed revision *)

Lemma removals_app t1 t2 : removals (t1 ++ t2) = removals t1 ++ removals t2.
Proof. unfold removals. by rewrite omap_app. Qed.

Lemma requests_app t1 t2 : requests (t1 ++ t2) = requests t1 ++ requests t2.
Proof. unfold requests. by rewrite omap_app. Qed.

Lemma removals_fetches (nodes : list Node) (url : Node → string) method body :
  removals (map (fun node => EvFetch (url node) method body) nodes) = [].
Proof. by induction nodes. Qed.

Lemma requests_fetches (nodes : list Node) (url : Node → string) method body :
  requests (map (fun node => EvFetch (url node) method body) nodes)
  = map (fun node => (url node, method, body)) nodes.
Proof. induction nodes as [|n nodes IH]; [done|]. simpl. by rewrite <-IH. Qed.

(** The world after a broadcast of the signed revision. *)
Lemma Signed_broadcast_world `{External} this path method body w :
  (Signed._broadcast this path (Some method) (Some body) w).2
  = next_broadcast
      (emit (map (fun node => EvFetch (node_url path node)
                                (if truthy (Some method) then method else "GET")
                                (if truthy (Some method) then Some (JSON_stringify body) else None))
               (nodes this)) w).
Proof. unfold Signed._broadcast. by destruct (truthy (Some method)). Qed.

Lemma Signed_broadcast_frame `{External} this path method body w :
  let w' := (Signed._broadcast this path method body w).2 in
  ring w' = ring w ∧ answers w' = answers w ∧ clock w' = clock w
  ∧ removals (trace w') = removals (trace w).
Proof.
  unfold Signed._broadcast.
  destruct (truthy method); simpl; split_and!; try reflexivity;
    by rewrite removals_app, removals_fetches, app_nil_r.
Qed.

Lemma Signed_lookup_world `{External} this address w :
  (Signed.lookup this address w).2 = (Signed._broadcast this (_path address) None None w).2.
Proof.
  unfold Signed.lookup, then_, catch_, resolve, throw.
  by destruct (Signed._broadcast _ _ _ _ w) as [[| |] w'].
Qed.

Lemma Signed_lookup_frame `{External} this address w :
  let w' := (Signed.lookup this address w).2 in
  ring w' = ring w ∧ answers w' = answers w ∧ clock w' = clock w
  ∧ removals (trace w') = removals (trace w).
Proof. simpl. rewrite Signed_lookup_world. apply Signed_broadcast_frame. Qed.

Lemma findPrivateKey_frame `{External} address exclude w :
  let w' := (Signed.findPrivateKey address exclude w).2 in
  ring w' = ring w ∧ clock w' = clock w ∧ removals (trace w') = removals (trace w).
Proof.
  unfold Signed.findPrivateKey.
  destruct (getKeyByAddress (ring w) address) as [|k ks], (head (readArmored exclude)) as [ex|];
    simpl; try done.
  destruct (filter _ _) as [|lockedKey rest]; simpl; [done|].
  unfold then_, prompt, await. simpl.
  split_and!; try reflexivity. by rewrite removals_app, app_nil_r.
Qed.

(** The key of a failure with status 404 starts with "404". *)
Lemma not_found_key reason body :
  Signed.not_found (ThrownString (Signed.ResponseKey (Failure (Some 404%N) reason body))) = true.
Proof. reflexivity. Qed.

(** Whether a text starts with a prefix is decided within the prefix's length. *)
Lemma startsWith_app s t p :
  (String.length p ≤ String.length s)%nat → startsWith (s +:+ t) p = startsWith s p.
Proof.
  assert (∀ x, startsWith x "" = true) as Hnil by (by intros [|??]).
  revert s. induction p as [|a p IH]; intros s Hlen; [by rewrite !Hnil|].
  destruct s as [|b s]; simpl in Hlen; [lia|].
  change (String b s +:+ t) with (String b (s +:+ t)). simpl.
  destruct (decide (a = b)); [|done]. apply IH. lia.
Qed.

(** Among the statuses of three digits, 404 is the one whose numeral starts with "404". *)
Lemma three_digit_status code :
  (100 ≤ code ≤ 999)%N →
  (3 ≤ String.length (pretty code))%nat
  ∧ startsWith (pretty code) "404" = bool_decide (code = 404%N).
Proof.
  intros Hrange.
  assert (forallb (fun n =>
                     (3 <=? String.length (pretty (N.of_nat n)))%nat
                     && Bool.eqb (startsWith (pretty (N.of_nat n)) "404") (n =? 404)%nat)
            (seq 100 900) = true) as Hall by (vm_compute; reflexivity).
  rewrite forallb_forall in Hall.
  specialize (Hall (N.to_nat code)). rewrite N2Nat.id in Hall.
  destruct (andb_prop _ _ (Hall ltac:(apply in_seq; lia))) as [Hlen Hstart].
  split; [by apply Nat.leb_le|].
  apply Bool.eqb_prop in Hstart. rewrite Hstart.
  destruct (Nat.eqb_spec (N.to_nat code) 404) as [Heq|Hne].
  - rewrite bool_decide_eq_true_2; [done|lia].
  - rewrite bool_decide_eq_false_2; [done|lia].
Qed.

(** The key of a failure with a status of three digits other than 404, and
    the key of a failure without a status, do not start with "404". *)
Lemma other_failure_key code reason body :
  code = None ∨ (∃ c, code = Some c ∧ (100 ≤ c ≤ 999)%N ∧ c ≠ 404%N) →
  Signed.not_found (ThrownString (Signed.ResponseKey (Failure code reason body))) = false.
Proof.
  intros [->|(c & -> & Hrange & Hne)]; [done|].
  destruct (three_digit_status c Hrange) as [Hlen Hstart].
  unfold Signed.not_found, Signed.ResponseKey, tpl_num.
  rewrite startsWith_app, Hstart by done. by rewrite bool_decide_eq_false_2.
Qed.

(** C8. When the initial lookup of an upload rejects with the "not found"
    failure, a text that starts with "404" as the key of every failure with
    status 404 does, the workflow prompts for a signature, builds a new
    payload of alias, key and timestamp, attaches the answer as its
    signature, and broadcasts it with POST to every node; the call ends as
    that broadcast ends, a rejection wrapped as a message. When the lookup
    rejects with anything else, the upload rejects with the same value in the
    world the lookup left: nothing is prompted and nothing more is sent. The
    "not found" failure is exactly a text that starts with "404": the key of
    a failure with another status of three digits (403, 500, the 520 of the
    timeouts), or with no status, is not one, and a lookup that fails with
    such a key aborts the upload with that key. *)
Theorem upload_after_failed_lookup `{External}
    (this : PBFTClient) (options : UploadOptions) (w : World) (e : Thrown) :
  let address := email options in
  let publicKey := publicKeyArmored options in
  let w1 := (Signed.lookup this address w).2 in
  (Signed.lookup this address w).1 = Rejected e →
  (∀ reason body,
     Signed.not_found (ThrownString (Signed.ResponseKey (Failure (Some 404%N) reason body))) = true)
  ∧ (Signed.not_found e = true →
     let signature :=
       match default None (head (answers w1)) with Some sig => JStr sig | None => JNull end in
     let payload :=
       JObj [("alias", JStr address); ("key", JStr publicKey);
             ("timestamp", JNum (Z.of_N (clock w1))); ("signature", signature)] in
     let w2 := next_answer (emit [EvPrompt Signed.signature_prompt] w1) in
     let post := Signed._broadcast this (Some "") (Some "POST") (Some payload) w2 in
     Signed.upload this options w = (wrapped post.1, post.2)
     ∧ trace post.2
       = trace w1 ++ [EvPrompt Signed.signature_prompt]
         ++ map (fun node => EvFetch (node_url (Some "") node) "POST" (Some (JSON_stringify payload)))
              (nodes this))
  ∧ (Signed.not_found e = false → Signed.upload this options w = (Rejected e, w1))
  ∧ (∀ e', Signed.not_found e' = true ↔ ∃ s, e' = ThrownString s ∧ startsWith s "404" = true)
  ∧ (∀ code reason body,
       code = None ∨ (∃ c, code = Some c ∧ (100 ≤ c ≤ 999)%N ∧ c ≠ 404%N) →
       Signed.not_found (ThrownString (Signed.ResponseKey (Failure code reason body))) = false)
  ∧ (∀ code reason body,
       e = ThrownString (Signed.ResponseKey (Failure code reason body)) →
       code = None ∨ (∃ c, code = Some c ∧ (100 ≤ c ≤ 999)%N ∧ c ≠ 404%N) →
       Signed.upload this options w = (Rejected e, w1)).
Proof.
  intros address publicKey w1 Hlookup. split; [intros; apply not_found_key|].
  pose proof (result_and_world _ _ Hlookup) as Hl. fold w1 in Hl.
  assert (Signed.not_found e = false → Signed.upload this options w = (Rejected e, w1))
    as Habort.
  { intros Hnf. unfold Signed.upload. fold address publicKey.
    unfold catch_ at 1. unfold then_ at 1 2. rewrite Hl. by rewrite Hnf. }
  split_and!.
  - intros Hnf signature payload w2 post.
    split.
    + unfold Signed.upload. fold address publicKey.
      unfold catch_ at 1. unfold then_ at 1 2. rewrite Hl. rewrite Hnf.
      change ((Signed._broadcast this (Some "") (Some "POST") (Some payload)
                 THEN (fun r => resolve r)
                 CATCH (fun e0 => throw (ThrownMessage e0))) w2 = (wrapped post.1, post.2)).
      unfold catch_, then_, resolve, throw. subst post.
      by destruct (Signed._broadcast this (Some "") (Some "POST") (Some payload) w2) as [[| |] w3].
    + subst post. rewrite Signed_broadcast_world. simpl. by rewrite <-app_assoc.
  - done.
  - intros e'. split.
    + destruct e' as [s| | |]; [|done..]. simpl. eauto.
    + by intros (s & -> & Hs).
  - intros code reason body. apply other_failure_key.
  - intros code reason body -> Hcode. apply Habort. by apply other_failure_key.
Qed.

(** One node answers the lookup with "404 Not Found"; "SIG" is typed into
    the prompt: the address is looked up, then the signed payload is posted.
    When the node answers "403 Forbidden" instead, the upload is rejected
    with the key of that failure after the lookup alone. *)
Lemma upload_after_failed_lookup_witness :
  let w := sample_world 1 [[refused 404 "Not Found" "no such key"]; [found "stored"]]
             [Some "SIG"] [] in
  let w' := sample_world 1 [[refused 403 "Forbidden" "not yours"]; [found "stored"]]
              [Some "SIG"] [] in
  requests (trace (Signed.upload (constructor (cluster 1))
                     {| email := "a@b.c"; publicKeyArmored := "NEW" |} w).2)
  = [("http://node0:8000?name=a%40b.c", "GET", None);
     ("http://node0:8000", "POST",
      Some (JSON_stringify (JObj [("alias", JStr "a@b.c"); ("key", JStr "NEW");
                                  ("timestamp", JNum 1512875000000);
                                  ("signature", JStr "SIG")])))]
  ∧ Signed.upload (constructor (cluster 1)) {| email := "a@b.c"; publicKeyArmored := "NEW" |} w'
    = (Rejected (ThrownString "403 Forbidden not yours"),
       (Signed.lookup (constructor (cluster 1)) "a@b.c" w').2)
  ∧ trace (Signed.lookup (constructor (cluster 1)) "a@b.c" w').2
    = [EvFetch "http://node0:8000?name=a%40b.c" "GET" None].
Proof.
  intros w w'. split_and!.
  - destruct (upload_after_failed_lookup (constructor (cluster 1))
                {| email := "a@b.c"; publicKeyArmored := "NEW" |} w
                (ThrownString "404 Not Found no such key") eq_refl) as (_ & Hnf & _).
    destruct (Hnf eq_refl) as [-> _]. reflexivity.
  - destruct (upload_after_failed_lookup (constructor (cluster 1))
                {| email := "a@b.c"; publicKeyArmored := "NEW" |} w'
                (ThrownString "403 Forbidden not yours") eq_refl)
      as (_ & _ & _ & _ & _ & Hother).
    apply (Hother (Some 403%N) (Some "Forbidden") "not yours"); [reflexivity|].
    right. exists 403%N. split_and!; [reflexivity|lia|lia|discriminate].
  - reflexivity.
Defined.

(** The found branch up to the update broadcast: with the lookup fulfilled,
    an old key unlocked and the payload signed, the upload ends as the PUT
    broadcast ends, and removes the old key when that broadcast is fulfilled. *)
Lemma upload_found `{External} this options w found_text key signature :
  let address := email options in
  let publicKey := publicKeyArmored options in
  let w1 := (Signed.lookup this address w).2 in
  let w2 := (Signed.findPrivateKey address publicKey w1).2 in
  let payload :=
    JObj [("alias", JStr address); ("key", JStr publicKey);
          ("timestamp", JNum (Z.of_N (clock w2)))] in
  let signedPayload :=
    JObj [("alias", JStr address); ("key", JStr publicKey);
          ("timestamp", JNum (Z.of_N (clock w2))); ("signature", JStr signature)] in
  let put := Signed._broadcast this (Some "") (Some "PUT") (Some signedPayload) w2 in
  (Signed.lookup this address w).1 = Fulfilled found_text →
  (Signed.findPrivateKey address publicKey w1).1 = Fulfilled key →
  sign (JSON_stringify payload) key = Fulfilled signature →
  Signed.upload this options w
  = match put.1 with
    | Fulfilled r =>
        (Fulfilled r,
         with_ring (removeKey (ring put.2) (fingerprint key))
           (emit [EvRemoveKey (fingerprint key)] put.2))
    | Rejected e => (Rejected (ThrownMessage e), put.2)
    | Pending => (Pending, put.2)
    end.
Proof.
  intros address publicKey w1 w2 payload signedPayload put Hlookup Hfind Hsign.
  pose proof (result_and_world _ _ Hlookup) as Hl. fold w1 in Hl.
  pose proof (result_and_world _ _ Hfind) as Hf. fold w2 in Hf.
  unfold Signed.upload. fold address publicKey.
  unfold catch_ at 1. unfold then_ at 1 2. rewrite Hl, Hf.
  unfold then_ at 1 2. unfold Signed.genPayload, then_ at 1, Date_now, resolve at 1.
  unfold Signed.signPayload, then_ at 1, await. fold payload. rewrite Hsign.
  unfold resolve at 1.
  change (Signed.appendSignature payload (JStr signature)) with signedPayload.
  unfold catch_, then_, throw, ring_removeKey, resolve. fold put.
  destruct put as [[|r|e] w3]; simpl; done.
Qed.

Lemma findPrivateKey_candidates `{External} address exclude w uploaded others :
  readArmored exclude = uploaded :: others →
  Signed.findPrivateKey address exclude w
  = match filter (fun k => fingerprint k ≠ fingerprint uploaded)
            (getKeyByAddress (ring w) address) with
    | [] => (Rejected (ThrownError ("You do not own the key for the email " +:+ address
                                    +:+ " so you cannot update it.")), w)
    | lockedKey :: _ =>
        (unlockKey lockedKey (default None (head (answers w))),
         next_answer (emit [EvPrompt Signed.password_prompt] w))
    end.
Proof.
  intros Hread. unfold Signed.findPrivateKey. rewrite Hread. simpl.
  rewrite (list_filter_iff _ (fun k => fingerprint k ≠ fingerprint uploaded))
    by (intros k; split; congruence).
  destruct (getKeyByAddress (ring w) address) as [|k ks]; [done|].
  destruct (filter _ (k :: ks)) as [|lockedKey rest]; [done|].
  unfold then_, prompt, await. reflexivity.
Qed.

(** C9. In the found branch of an upload, the keys the ring holds for the
    address are filtered by the fingerprint of the key being uploaded. When
    none is left the upload rejects with the ownership error in the world the
    lookup left, so no request follows those of the lookup and the ring is
    untouched. When some are left, the first of them is the one unlocked
    with the passphrase typed into the prompt, and the signature sent with
    the PUT broadcast is the one made with that unlocked key. *)
Theorem upload_needs_an_owned_key `{External}
    (this : PBFTClient) (options : UploadOptions) (w : World)
    (found_text : JsonText) (uploaded : Key) (others : list Key) :
  let address := email options in
  let publicKey := publicKeyArmored options in
  let w1 := (Signed.lookup this address w).2 in
  let candidates :=
    filter (fun k => fingerprint k ≠ fingerprint uploaded) (getKeyByAddress (ring w1) address) in
  (Signed.lookup this address w).1 = Fulfilled found_text →
  readArmored publicKey = uploaded :: others →
  (candidates = [] →
     Signed.upload this options w
     = (Rejected (ThrownError ("You do not own the key for the email " +:+ address
                               +:+ " so you cannot update it.")), w1)
     ∧ requests (trace (Signed.upload this options w).2) = requests (trace w1)
     ∧ ring (Signed.upload this options w).2 = ring w)
  ∧ (∀ lockedKey rest, candidates = lockedKey :: rest →
       let passphrase := default None (head (answers w1)) in
       let w2 := next_answer (emit [EvPrompt Signed.password_prompt] w1) in
       Signed.findPrivateKey address publicKey w1 = (unlockKey lockedKey passphrase, w2)
       ∧ ∀ key signature,
           unlockKey lockedKey passphrase = Fulfilled key →
           sign (JSON_stringify
                   (JObj [("alias", JStr address); ("key", JStr publicKey);
                          ("timestamp", JNum (Z.of_N (clock w1)))])) key
           = Fulfilled signature →
           requests (trace (Signed.upload this options w).2)
           = requests (trace w1)
             ++ map (fun node =>
                       (node_url (Some "") node, "PUT",
                        Some (JSON_stringify
                                (JObj [("alias", JStr address); ("key", JStr publicKey);
                                       ("timestamp", JNum (Z.of_N (clock w1)));
                                       ("signature", JStr signature)]))))
                  (nodes this)).
Proof.
  intros address publicKey w1 candidates Hlookup Hread.
  pose proof (findPrivateKey_candidates address publicKey w1 uploaded others Hread) as Hfind.
  fold candidates in Hfind.
  pose proof (result_and_world _ _ Hlookup) as Hl. fold w1 in Hl.
  split.
  - intros Hnone. rewrite Hnone in Hfind.
    assert (Signed.upload this options w
            = (Rejected (ThrownError ("You do not own the key for the email " +:+ address
                                      +:+ " so you cannot update it.")), w1)) as ->.
    { unfold Signed.upload. fold address publicKey.
      unfold catch_ at 1. unfold then_ at 1 2. by rewrite Hl, Hfind. }
    split_and!; [done|done|]. apply Signed_lookup_frame.
  - intros lockedKey rest Hsome passphrase w2. subst passphrase w2. rewrite Hsome in Hfind.
    split; [done|]. intros key signature Hunlock Hsign.
    rewrite Hunlock in Hfind.
    rewrite (upload_found this options w found_text key signature); fold address publicKey w1.
    + rewrite Hfind. cbn [snd].
      set (put := Signed._broadcast _ _ _ _ _).
      assert (requests (trace put.2)
              = requests (trace w1)
                ++ map (fun node =>
                          (node_url (Some "") node, "PUT",
                           Some (JSON_stringify
                                   (JObj [("alias", JStr address); ("key", JStr publicKey);
                                          ("timestamp", JNum (Z.of_N (clock w1)));
                                          ("signature", JStr signature)]))))
                     (nodes this)) as Hput.
      { subst put. rewrite Signed_broadcast_world. simpl.
        rewrite !requests_app. simpl. rewrite app_nil_r.
        by rewrite requests_fetches. }
      destruct put as [[|r|e] w3]; simpl in *; try done.
      rewrite requests_app. simpl. by rewrite app_nil_r.
    + done.
    + by rewrite Hfind.
    + by rewrite Hfind.
Qed.

(** The ring holds OLD for the address, the key NEW is uploaded: OLD is
    unlocked and its signature goes out with the PUT. *)
Lemma upload_needs_an_owned_key_witness :
  let w := sample_world 1 [[found "OLD"]; [found "stored"]] [Some "secret"]
             [{| sk_fingerprint := "OLD"; sk_owner := "a@b.c" |}] in
  Signed.findPrivateKey "a@b.c" "NEW"
    (Signed.lookup (constructor (cluster 1)) "a@b.c" w).2
  = (Fulfilled {| sk_fingerprint := "OLD"; sk_owner := "a@b.c" |},
     next_answer (emit [EvPrompt Signed.password_prompt]
                    (Signed.lookup (constructor (cluster 1)) "a@b.c" w).2)).
Proof.
  intros w.
  destruct (upload_needs_an_owned_key (constructor (cluster 1))
              {| email := "a@b.c"; publicKeyArmored := "NEW" |} w
              (JSON_stringify (JObj [
                 ("keyId", JStr "keyid");
                 ("fingerprint", JStr "fingerprint");
                 ("userIds", JArr [JObj [("name", JStr "name"); ("email", JStr "a@b.c");
                                         ("verified", JBool true)]]);
                 ("created", JStr "2017-12-10T03: 03: 20.763Z");
                 ("uploaded", JStr "2017-12-10T03: 03: 20.763Z");
                 ("algorithm", JStr "rsa_encrypt_sign");
                 ("keySize", JNum 4096);
                 ("publicKeyArmored", JStr "OLD")]))
              {| sk_fingerprint := "NEW"; sk_owner := "" |} [] eq_refl eq_refl) as [_ Hsome].
  destruct (Hsome {| sk_fingerprint := "OLD"; sk_owner := "a@b.c" |} [] eq_refl) as [Hfind _].
  exact Hfind.
Defined.

(** C10. In the found branch of an upload, with an old key unlocked and the
    payload signed, [ring.removeKey] is called, once and with the fingerprint
    of the old key, exactly if the PUT broadcast is fulfilled: then the
    upload is fulfilled with the same result and the ring is the initial ring
    without that key. If the PUT broadcast rejects the upload rejects with
    the error wrapped as a message, if it stays pending so does the upload,
    and in both cases the ring is the initial ring and nothing was removed. *)
Theorem old_key_removed_iff_put_commits `{External}
    (this : PBFTClient) (options : UploadOptions) (w : World)
    (found_text : JsonText) (key : Key) (signature : string) :
  let address := email options in
  let publicKey := publicKeyArmored options in
  let w1 := (Signed.lookup this address w).2 in
  let w2 := (Signed.findPrivateKey address publicKey w1).2 in
  let payload :=
    JObj [("alias", JStr address); ("key", JStr publicKey);
          ("timestamp", JNum (Z.of_N (clock w2)))] in
  let signedPayload :=
    JObj [("alias", JStr address); ("key", JStr publicKey);
          ("timestamp", JNum (Z.of_N (clock w2))); ("signature", JStr signature)] in
  let put := Signed._broadcast this (Some "") (Some "PUT") (Some signedPayload) w2 in
  let final := (Signed.upload this options w).2 in
  (Signed.lookup this address w).1 = Fulfilled found_text →
  (Signed.findPrivateKey address publicKey w1).1 = Fulfilled key →
  sign (JSON_stringify payload) key = Fulfilled signature →
  (∀ r, put.1 = Fulfilled r →
     (Signed.upload this options w).1 = Fulfilled r
     ∧ ring final = removeKey (ring w) (fingerprint key)
     ∧ removals (trace final) = removals (trace w) ++ [fingerprint key])
  ∧ (∀ e, put.1 = Rejected e →
     (Signed.upload this options w).1 = Rejected (ThrownMessage e)
     ∧ ring final = ring w
     ∧ removals (trace final) = removals (trace w))
  ∧ (put.1 = Pending →
     (Signed.upload this options w).1 = Pending
     ∧ ring final = ring w
     ∧ removals (trace final) = removals (trace w)).
Proof.
  intros address publicKey w1 w2 payload signedPayload put final Hlookup Hfind Hsign.
  pose proof (upload_found this options w found_text key signature Hlookup Hfind Hsign) as Hup.
  fold address publicKey w1 w2 signedPayload put in Hup.
  destruct (Signed_lookup_frame this address w) as (Hr1 & _ & _ & Ht1).
  destruct (findPrivateKey_frame address publicKey w1) as (Hr2 & _ & Ht2).
  destruct (Signed_broadcast_frame this (Some "") (Some "PUT") (Some signedPayload) w2)
    as (Hr3 & _ & _ & Ht3).
  fold w1 in Hr1, Ht1. fold w2 in Hr2, Ht2. fold put in Hr3, Ht3.
  assert (ring put.2 = ring w) as Hring by congruence.
  assert (removals (trace put.2) = removals (trace w)) as Hrem by congruence.
  subst final. rewrite Hup. clear Hup Hr3 Ht3.
  destruct put as [p w3]. cbn [fst snd] in *.
  split_and!.
  - intros r ->. cbn. by rewrite Hring, removals_app, Hrem.
  - by intros e ->.
  - by intros ->.
Qed.

(** The update of the address commits: OLD leaves the ring. *)
Lemma old_key_removed_iff_put_commits_witness :
  let w := sample_world 1 [[found "OLD"]; [found "stored"]] [Some "secret"]
             [{| sk_fingerprint := "OLD"; sk_owner := "a@b.c" |};
              {| sk_fingerprint := "OTHER"; sk_owner := "c@d.e" |}] in
  ring (Signed.upload (constructor (cluster 1))
          {| email := "a@b.c"; publicKeyArmored := "NEW" |} w).2
  = [{| sk_fingerprint := "OTHER"; sk_owner := "c@d.e" |}].
Proof.
  intros w.
  destruct (old_key_removed_iff_put_commits (constructor (cluster 1))
              {| email := "a@b.c"; publicKeyArmored := "NEW" |} w
              (JSON_stringify (JObj [
                 ("keyId", JStr "keyid");
                 ("fingerprint", JStr "fingerprint");
                 ("userIds", JArr [JObj [("name", JStr "name"); ("email", JStr "a@b.c");
                                         ("verified", JBool true)]]);
                 ("created", JStr "2017-12-10T03: 03: 20.763Z");
                 ("uploaded", JStr "2017-12-10T03: 03: 20.763Z");
                 ("algorithm", JStr "rsa_encrypt_sign");
                 ("keySize", JNum 4096);
                 ("publicKeyArmored", JStr "OLD")]))
              {| sk_fingerprint := "OLD"; sk_owner := "a@b.c" |} "signed by OLD"
              eq_refl eq_refl eq_refl) as (Hcommit & _ & _).
  destruct (Hcommit {| res_status := Some 200%N; res_statusText := Some "OK";
                       res_body := JStr "stored" |} eq_refl) as (_ & -> & _).
  reflexivity.
Defined.

(** * Further properties of the client and the wrapper *)

(** ** Agreement among the nodes *)

Lemma tally_split key k os :
  tally key k os + Z.of_nat (length (filter (fun o => key o ≠ k) os)) = Z.of_nat (length os).
Proof.
  unfold tally. induction os as [|o os IH]; [done|].
  rewrite !filter_cons. destruct (decide (key o = k)); simpl.
  - rewrite decide_False by (intros Hne; done). simpl. lia.
  - rewrite decide_True by done. simpl. lia.
Qed.

Lemma tally_others key k k' os :
  k' ≠ k → tally key k' os ≤ Z.of_nat (length (filter (fun o => key o ≠ k) os)).
Proof.
  intros Hne. unfold tally. induction os as [|o os IH]; [done|].
  rewrite !filter_cons. destruct (decide (key o = k')) as [Heq|]; simpl.
  - rewrite decide_True by congruence. simpl. lia.
  - destruct (decide (key o ≠ k)); simpl; lia.
Qed.

(** A key that is counted F+1 times has an outcome that brings its counter to F+1. *)
Lemma quorum_exists key F k os :
  0 ≤ F → F + 1 ≤ tally key k os → ∃ i o, reaches_quorum key F os i o ∧ key o = k.
Proof.
  intros HF. induction os as [|x os IH] using rev_ind.
  - unfold tally. simpl. lia.
  - rewrite tally_snoc. intros Hk.
    destruct (decide (F + 1 ≤ tally key k os)) as [Hold|Hnew].
    + destruct (IH Hold) as (i & o & Hq & Ho). exists i, o. split; [|done].
      apply reaches_quorum_snoc_old; [|done]. by eapply reaches_quorum_lt.
    + destruct (decide (key x = k)) as [Hx|]; [|lia].
      exists (length os), x. split; [|done].
      apply reaches_quorum_snoc_new. split; [done|]. rewrite Hx. lia.
Qed.

(** With at most F outcomes under other keys, only an outcome under [k] can
    bring a counter to F+1. *)
Lemma quorum_key key F k os i o :
  Z.of_nat (length (filter (fun o => key o ≠ k) os)) ≤ F →
  reaches_quorum key F os i o → key o = k.
Proof.
  intros Hfew [_ Hq]. destruct (decide (key o = k)) as [|Hne]; [done|].
  pose proof (tally_take_le key (key o) (S i) os).
  pose proof (tally_others key k (key o) os Hne). lia.
Qed.

Lemma signed_settlement F os :
  (settled (aggregate Signed.countOutcome F os) = []
   ∧ ∀ i o, ¬ reaches_quorum Signed.ResponseKey F os i o)
  ∨ (∃ i o, reaches_quorum Signed.ResponseKey F os i o
       ∧ settled (aggregate Signed.countOutcome F os) = [verdict o]).
Proof.
  destruct (aggregate_first_quorum Signed.ResponseKey verdict Signed.countOutcome
              countOutcome_map countOutcome_settled countOutcome_latch F os)
    as [(Hs & _ & Hno)|(i & o & Hq & _ & Hs & _)]; [left|right]; eauto.
Qed.

Lemma promise_of_verdict st o : settled st = [verdict o] → promise_of st = outcome_promise o.
Proof. unfold promise_of. intros ->. by destruct o. Qed.

Lemma omap_length_le {A B} (f : A → option B) (l : list A) :
  (length (omap f l) ≤ length l)%nat.
Proof. induction l as [|x l IH]; [done|]. csimpl. destruct (f x); simpl; lia. Qed.

Lemma votes_length `{External} readBody this w :
  (length (votes readBody this w) ≤ length (nodes this))%nat.
Proof.
  unfold votes, deliveries. etrans; [apply omap_length_le|].
  rewrite length_map, length_take. lia.
Qed.

(** A key with F+1 votes, against at most F votes under other keys, settles
    the broadcast by one of its outcomes. *)
Lemma broadcast_agreement `{External} this path method body w k :
  let outcomes := votes Signed.readBody this w in
  0 ≤ F this →
  F this + 1 ≤ tally Signed.ResponseKey k outcomes →
  Z.of_nat (length (filter (fun o => Signed.ResponseKey o ≠ k) outcomes)) ≤ F this →
  ∃ o, o ∈ outcomes ∧ Signed.ResponseKey o = k
       ∧ (Signed._broadcast this path method body w).1 = outcome_promise o.
Proof.
  intros outcomes HF0 Hquorum Hfew.
  destruct (quorum_exists Signed.ResponseKey (F this) k outcomes HF0 Hquorum) as (i0 & o0 & Hq0 & _).
  rewrite broadcast_is_aggregate. fold outcomes.
  destruct (signed_settlement (F this) outcomes) as [[_ Hno]|(i & o & Hq & Hs)].
  - by destruct (Hno i0 o0).
  - exists o. split_and!.
    + destruct Hq as [Hi _]. by eapply list_elem_of_lookup_2.
    + by eapply quorum_key.
    + by apply promise_of_verdict.
Qed.

(** X1. If at most F of the counted outcomes have a key other than [k], a
    broadcast is settled, if at all, by an outcome whose key is [k]: the votes
    of F nodes cannot make the call end with a key of their own. The key is
    all that is agreed on; which of the outcomes under [k] settles the call,
    and so whose status, statusText and body the caller receives, is not
    fixed by it. *)
Theorem quorum_safety `{External}
    (this : PBFTClient) (path method : option string) (body : option Json) (w : World)
    (k : string) :
  let outcomes := votes Signed.readBody this w in
  Z.of_nat (length (filter (fun o => Signed.ResponseKey o ≠ k) outcomes)) ≤ F this →
  (Signed._broadcast this path method body w).1 = Pending
  ∨ ∃ o, o ∈ outcomes ∧ Signed.ResponseKey o = k
         ∧ (Signed._broadcast this path method body w).1 = outcome_promise o.
Proof.
  intros outcomes Hfew. rewrite broadcast_is_aggregate. fold outcomes.
  destruct (signed_settlement (F this) outcomes) as [[Hs _]|(i & o & Hq & Hs)].
  - left. unfold promise_of. by rewrite Hs.
  - right. exists o. split_and!.
    + destruct Hq as [Hi _]. by eapply list_elem_of_lookup_2.
    + by eapply quorum_key.
    + by apply promise_of_verdict.
Qed.

(** Four nodes, three of which answer X and one Y, in the order Y, X, X, X. *)
Lemma quorum_safety_witness :
  let w := sample_world 4 [[found "Y"; found "X"; found "X"; found "X"]] [] [] in
  (Signed._broadcast (constructor (cluster 4)) (Some "?name=a") None None w).1 = Pending
  ∨ ∃ o, o ∈ votes Signed.readBody (constructor (cluster 4)) w
         ∧ Signed.ResponseKey o = "200 OK X"
         ∧ (Signed._broadcast (constructor (cluster 4)) (Some "?name=a") None None w).1
           = outcome_promise o.
Proof.
  intros w.
  apply (quorum_safety (constructor (cluster 4)) (Some "?name=a") None None w "200 OK X").
  vm_compute. discriminate.
Defined.

(** Agreement on the key is not agreement on the body. Three nodes answer
    with one object and a fourth with another: all four outcomes have the key
    "200 OK [object Object]", and the call is fulfilled with the body of the
    fourth node, whose answer is counted second. *)
Example one_node_decides_the_body :
  let honest := Answers 120 (httpResponse 200 "OK" (Some (JObj [("key", JStr "A")])) None) in
  let other := Answers 120 (httpResponse 200 "OK" (Some (JObj [("key", JStr "B")])) None) in
  let w := sample_world 4 [[honest; other; honest; honest]] [] [] in
  Forall (fun o => Signed.ResponseKey o = "200 OK [object Object]")
    (votes Signed.readBody (constructor (cluster 4)) w)
  ∧ (Signed._broadcast (constructor (cluster 4)) (Some "?name=a") None None w).1
    = Fulfilled {| res_status := Some 200%N; res_statusText := Some "OK";
                   res_body := JObj [("key", JStr "B")] |}.
Proof. split; [repeat constructor|reflexivity]. Qed.

(** X2. In a cluster of N nodes, N at least 1 and other than 2, if all but F
    of the nodes are counted with outcomes of one key, the broadcast is
    settled, and by an outcome of that key. *)
Theorem quorum_liveness `{External}
    (config : ClusterConfig) (path method : option string) (body : option Json) (w : World)
    (k : string) :
  let this := constructor config in
  let n := length (nodes this) in
  let outcomes := votes Signed.readBody this w in
  (1 ≤ n)%nat → n ≠ 2%nat →
  Z.of_nat n - F this ≤ tally Signed.ResponseKey k outcomes →
  ∃ o, o ∈ outcomes ∧ Signed.ResponseKey o = k
       ∧ (Signed._broadcast this path method body w).1 = outcome_promise o.
Proof.
  intros this n outcomes Hn Hn2 Hmost.
  pose proof (ceil_thirds (Z.of_nat n - 1)) as HF. fold (F this) in HF.
  change (Math_ceil_div (Z.of_nat n - 1) 3) with (F this) in HF.
  pose proof (votes_length Signed.readBody this w) as Hlen. fold outcomes n in Hlen.
  pose proof (tally_split Signed.ResponseKey k outcomes) as Hsplit.
  assert (0 ≤ F this) as HF0 by lia.
  assert (F this + 1 ≤ tally Signed.ResponseKey k outcomes) as Hquorum by lia.
  assert (Z.of_nat (length (filter (fun o => Signed.ResponseKey o ≠ k) outcomes)) ≤ F this)
    as Hfew by lia.
  by apply broadcast_agreement.
Qed.

(** Four nodes: one does not answer, the others answer X. *)
Lemma quorum_liveness_witness :
  let w := sample_world 4 [[Silent; found "X"; found "X"; found "X"]] [] [] in
  ∃ o, o ∈ votes Signed.readBody (constructor (cluster 4)) w
       ∧ Signed.ResponseKey o = "200 OK X"
       ∧ (Signed._broadcast (constructor (cluster 4)) (Some "?name=a") None None w).1
         = outcome_promise o.
Proof.
  intros w.
  apply (quorum_liveness (cluster 4) (Some "?name=a") None None w "200 OK X").
  - vm_compute. lia.
  - discriminate.
  - vm_compute. discriminate.
Defined.

(** In a cluster of two nodes F is 1 and both must agree: one silent node
    keeps the call pending. *)
Example two_nodes_tolerate_no_fault :
  F (constructor (cluster 2)) = 1
  ∧ (Signed._broadcast (constructor (cluster 2)) (Some "?name=a") None None
       (sample_world 2 [[found "X"; Silent]] [] [])).1 = Pending.
Proof. split; reflexivity. Qed.

(** ** A cluster that does not answer *)

Lemma tally_replicate (key : NodeOutcome → string) n o :
  tally key (key o) (replicate n o) = Z.of_nat n.
Proof.
  unfold tally. induction n as [|n IH]; [done|]. simpl.
  rewrite filter_cons, decide_True by done. simpl. lia.
Qed.

Section Unanimity.

Variable key : NodeOutcome → string.
Variable outcome_verdict : NodeOutcome → QuorumResult.
Variable count : Z → NodeOutcome → BroadcastState → BroadcastState.

Hypothesis count_map : ∀ F o st,
  responseMap (count F o st)
  = <[key o := proxy_get (responseMap st) (key o) + 1]> (responseMap st).
Hypothesis count_settled : ∀ F o st,
  settled (count F o st)
  = settled st ++
    (if bool_decide (proxy_get (responseMap st) (key o) + 1 = F + 1) && negb (promiseResolved st)
     then [outcome_verdict o] else []).
Hypothesis count_latch : ∀ F o st,
  promiseResolved (count F o st)
  = promiseResolved st || bool_decide (proxy_get (responseMap st) (key o) + 1 = F + 1).

(** More than F equal outcomes, and no other: the call is settled with their verdict. *)
Lemma unanimous_settlement F n o :
  0 ≤ F → F + 1 ≤ Z.of_nat n →
  settled (aggregate count F (replicate n o)) = [outcome_verdict o].
Proof.
  intros HF Hn.
  destruct (quorum_exists key F (key o) (replicate n o) HF) as (i0 & o0 & Hq0 & _).
  { by rewrite tally_replicate. }
  destruct (aggregate_first_quorum key outcome_verdict count count_map count_settled count_latch
              F (replicate n o)) as [(_ & _ & Hno)|(i & o' & [Hat _] & _ & Hs & _)].
  - by destruct (Hno i0 o0).
  - apply list_elem_of_lookup_2, elem_of_replicate_inv in Hat. by subst o'.
Qed.

End Unanimity.

Lemma deliveries_all_timeouts `{External} n w :
  Forall (fun a => race a = timeoutObject) (default [] (head (inbox w))) →
  deliveries n w = replicate n timeoutObject.
Proof.
  intros Hall. unfold deliveries. symmetry. apply replicate_as_Forall. split.
  - rewrite length_map, length_take, length_app, length_replicate. lia.
  - apply Forall_fmap, Forall_take, Forall_app. split.
    + eapply Forall_impl; [done|]. intros a Ha. unfold compose. by rewrite Ha.
    + by apply Forall_replicate.
Qed.

Lemma votes_all_timeouts `{External} readBody this w :
  readBody timeoutObject = Some (Failure (Some 520%N) (Some "Request Timeout") "") →
  Forall (fun a => race a = timeoutObject) (default [] (head (inbox w))) →
  votes readBody this w
  = replicate (length (nodes this)) (Failure (Some 520%N) (Some "Request Timeout") "").
Proof.
  intros Hread Hall. unfold votes. rewrite deliveries_all_timeouts by done.
  induction (length (nodes this)) as [|n IH]; [done|]. csimpl. by rewrite Hread, IH.
Qed.

(** In a cluster of N >= 1 nodes unanimity is a quorum. *)
Lemma unanimity_is_quorum config :
  (1 ≤ length (config_nodes config))%nat →
  0 ≤ F (constructor config)
  ∧ F (constructor config) + 1 ≤ Z.of_nat (length (nodes (constructor config))).
Proof.
  intros Hn. pose proof (ceil_thirds (Z.of_nat (length (config_nodes config)) - 1)) as HF.
  change (Math_ceil_div (Z.of_nat (length (config_nodes config)) - 1) 3)
    with (F (constructor config)) in HF.
  change (nodes (constructor config)) with (config_nodes config). lia.
Qed.

(** X3. In a cluster of at least one node, when no node answers before its
    timer fires, the broadcast rejects with the key of the timeouts: a call to
    a cluster that is down ends, with "520 Request Timeout ", and so does a
    lookup, whatever the address. *)
Theorem unresponsive_cluster_rejects `{External}
    (config : ClusterConfig) (path method : option string) (body : option Json) (w : World) :
  let this := constructor config in
  (1 ≤ length (nodes this))%nat →
  Forall (fun a => race a = timeoutObject) (default [] (head (inbox w))) →
  (Signed._broadcast this path method body w).1
  = Rejected (ThrownString "520 Request Timeout ")
  ∧ ∀ address,
      Signed.lookup this address w
      = (Rejected (ThrownString "520 Request Timeout "),
         (Signed._broadcast this (_path address) None None w).2).
Proof.
  intros this Hn Hall.
  destruct (unanimity_is_quorum config Hn) as [HF0 HFn]. fold this in HF0, HFn.
  assert (∀ path method body,
            (Signed._broadcast this path method body w).1
            = Rejected (ThrownString "520 Request Timeout ")) as Hdown.
  { intros p m b. rewrite broadcast_is_aggregate, votes_all_timeouts by done.
    unfold promise_of.
    by rewrite (unanimous_settlement Signed.ResponseKey verdict Signed.countOutcome
                  countOutcome_map countOutcome_settled countOutcome_latch). }
  split; [apply Hdown|]. intros address. by apply Signed_lookup_rejected.
Qed.

(** Seven nodes: three never answer, four answer after eight seconds. *)
Lemma unresponsive_cluster_rejects_witness :
  (Signed._broadcast (constructor (cluster 7)) (Some "?name=a") None None
     (sample_world 7
        [[Silent; Answers 8000 (httpResponse 200 "OK" (Some (JStr "X")) None); Silent;
          Answers 8000 (httpResponse 200 "OK" (Some (JStr "X")) None);
          Answers 8000 (httpResponse 200 "OK" (Some (JStr "X")) None); Silent;
          Answers 8000 (httpResponse 200 "OK" (Some (JStr "X")) None)]] [] [])).1
  = Rejected (ThrownString "520 Request Timeout ").
Proof.
  apply (unresponsive_cluster_rejects (cluster 7)).
  - vm_compute. lia.
  - repeat constructor.
Defined.

(** X4. A client whose configuration lists no node sends nothing and never
    settles: broadcast, lookup and upload stay pending, whatever the world. *)
Theorem empty_cluster_is_pending `{External}
    (this : PBFTClient) (path method : option string) (body : option Json)
    (address : string) (options : UploadOptions) (w : World) :
  nodes this = [] →
  (Signed._broadcast this path method body w).1 = Pending
  ∧ trace (Signed._broadcast this path method body w).2 = trace w
  ∧ (Signed.lookup this address w).1 = Pending
  ∧ (Signed.upload this options w).1 = Pending
  ∧ trace (Signed.upload this options w).2 = trace w.
Proof.
  intros Hnone.
  assert (∀ path method body w,
            Signed._broadcast this path method body w = (Pending, next_broadcast (emit [] w)))
    as Hb.
  { intros p m b w0. unfold Signed._broadcast, fan_out, deliveries. rewrite Hnone.
    by destruct (truthy m). }
  assert (∀ address w, Signed.lookup this address w = (Pending, next_broadcast (emit [] w)))
    as Hl.
  { intros a w0. unfold Signed.lookup, then_, catch_. by rewrite Hb. }
  rewrite Hb, Hl. unfold Signed.upload, then_, catch_. rewrite Hl. simpl.
  rewrite app_nil_r. done.
Qed.

Lemma empty_cluster_is_pending_witness :
  (Signed.upload (constructor (cluster 0)) {| email := "a@b.c"; publicKeyArmored := "NEW" |}
     (sample_world 0 [[found "X"]] [Some "SIG"] [])).1 = Pending.
Proof.
  apply (empty_cluster_is_pending (constructor (cluster 0)) None None None "a@b.c"
           {| email := "a@b.c"; publicKeyArmored := "NEW" |}
           (sample_world 0 [[found "X"]] [Some "SIG"] [])).
  reflexivity.
Defined.

(** ** Lookup *)

Lemma requests_node_fetches this path method body :
  requests (map (fun node => EvFetch (node_url path node) method body) (nodes this))
  = node_requests this path method body.
Proof. apply requests_fetches. Qed.

Lemma Signed_lookup_requests `{External} this address w :
  requests (trace (Signed.lookup this address w).2)
  = requests (trace w) ++ node_requests this (_path address) "GET" None.
Proof.
  rewrite Signed_lookup_world. unfold Signed._broadcast. simpl.
  by rewrite requests_app, requests_node_fetches.
Qed.

Lemma Unsigned_lookup_is_Signed `{External} this address w :
  Unsigned.lookup this address w = Signed.lookup this address w.
Proof. reflexivity. Qed.



(** ** The paths of an upload *)

(** [upload] step by step: every failure on the way to the PUT broadcast goes
    through the handler of the last [catch]; the failure of the PUT broadcast
    itself is wrapped, and so is rethrown by that handler. *)
Lemma upload_paths `{External} this options w :
  Signed.upload this options w
  = match Signed.lookup this (email options) w with
    | (Pending, w1) => (Pending, w1)
    | (Rejected e, w1) => upload_handler this options e w1
    | (Fulfilled _, w1) =>
        match Signed.findPrivateKey (email options) (publicKeyArmored options) w1 with
        | (Pending, w2) => (Pending, w2)
        | (Rejected e, w2) => upload_handler this options e w2
        | (Fulfilled key, w2) =>
            match sign (text_to_sign options (clock w2)) key with
            | Pending => (Pending, w2)
            | Rejected e => upload_handler this options e w2
            | Fulfilled signature => put_branch this options key signature w2
            end
        end
    end.
Proof.
  assert (∀ e w', (if Signed.not_found e
                   then
                     prompt Signed.signature_prompt
                       THEN (fun signature =>
                         Signed.genPayload (email options) (publicKeyArmored options)
                           THEN (fun payload =>
                             Signed._broadcast this (Some "") (Some "POST")
                               (Some (Signed.appendSignature payload
                                        (match signature with Some sig => JStr sig | None => JNull end)))
                               THEN (fun r => resolve r)
                               CATCH (fun e => throw (ThrownMessage e))))
                   else throw e) w'
                  = upload_handler this options e w') as Hhandler.
  { intros e w'. unfold upload_handler. destruct (Signed.not_found e); [|done].
    unfold post_branch, catch_, then_, prompt, Signed.genPayload, Date_now, resolve, throw.
    cbn -[Signed._broadcast Signed.signature_prompt].
    by destruct (Signed._broadcast _ _ _ _ _) as [[| |] w3]. }
  unfold Signed.upload. unfold catch_ at 1. unfold then_ at 1 2.
  destruct (Signed.lookup this (email options) w) as [[|txt|e] w1]; [done| |apply Hhandler].
  destruct (Signed.findPrivateKey (email options) (publicKeyArmored options) w1)
    as [[|key|e] w2]; [done| |apply Hhandler].
  unfold then_ at 1 2. unfold Signed.genPayload, then_ at 1, Date_now, resolve at 1.
  unfold Signed.signPayload, then_ at 1, await. unfold text_to_sign.
  destruct (sign _ key) as [|signature|e]; [done| |apply Hhandler].
  unfold resolve at 1. unfold put_branch.
  cbn -[Signed._broadcast]. unfold catch_, then_, throw, ring_removeKey, resolve.
  by destruct (Signed._broadcast _ _ _ _ _) as [[|r|e] w3].
Qed.

Lemma findPrivateKey_requests `{External} address exclude w :
  requests (trace (Signed.findPrivateKey address exclude w).2) = requests (trace w).
Proof.
  unfold Signed.findPrivateKey.
  destruct (getKeyByAddress (ring w) address) as [|k ks], (head (readArmored exclude)) as [ex|];
    simpl; try done.
  destruct (filter _ _) as [|lockedKey rest]; simpl; [done|].
  unfold then_, prompt, await. simpl. by rewrite requests_app, app_nil_r.
Qed.

Lemma post_branch_effects `{External} this options w :
  let w' := (post_branch this options w).2 in
  (∃ payload,
     requests (trace w') = requests (trace w) ++ node_requests this (Some "") "POST" (Some payload))
  ∧ ring w' = ring w ∧ removals (trace w') = removals (trace w).
Proof.
  unfold post_branch. cbn [snd]. rewrite Signed_broadcast_world. simpl.
  split_and!; [|done|].
  - eexists. rewrite !requests_app, requests_node_fetches. simpl. by rewrite app_nil_r.
  - rewrite !removals_app, removals_fetches. simpl. by rewrite !app_nil_r.
Qed.

Lemma put_branch_effects `{External} this options key signature w :
  let r := put_branch this options key signature w in
  (∃ payload,
     requests (trace r.2) = requests (trace w) ++ node_requests this (Some "") "PUT" (Some payload))
  ∧ ((ring r.2 = ring w ∧ removals (trace r.2) = removals (trace w))
     ∨ (∃ q, r.1 = Fulfilled q) ∧ ring r.2 = removeKey (ring w) (fingerprint key)
       ∧ removals (trace r.2) = removals (trace w) ++ [fingerprint key]).
Proof.
  unfold put_branch. set (put := Signed._broadcast _ _ _ _ _).
  assert (∃ payload, requests (trace put.2)
                     = requests (trace w) ++ node_requests this (Some "") "PUT" (Some payload))
    as [payload Hsent].
  { eexists. subst put. rewrite Signed_broadcast_world. simpl.
    by rewrite requests_app, requests_node_fetches. }
  destruct (Signed_broadcast_frame this (Some "") (Some "PUT")
              (Some (JObj [("alias", JStr (email options)); ("key", JStr (publicKeyArmored options));
                           ("timestamp", JNum (Z.of_N (clock w))); ("signature", JStr signature)])) w)
    as (Hring & _ & _ & Hrem).
  fold put in Hring, Hrem.
  destruct put as [[|q|e] w3]; cbn [fst snd] in *.
  - split; [by exists payload|by left].
  - split.
    + exists payload. simpl. by rewrite requests_app, app_nil_r.
    + right. split_and!; [by exists q|by simpl; rewrite Hring|].
      simpl. by rewrite removals_app, Hrem.
  - split; [by exists payload|by left].
Qed.

Lemma upload_handler_cases `{External} this options e w :
  (Signed.not_found e = false ∧ upload_handler this options e w = (Rejected e, w))
  ∨ (Signed.not_found e = true ∧ upload_handler this options e w = post_branch this options w).
Proof. unfold upload_handler. destruct (Signed.not_found e); [by right|by left]. Qed.

(** X6. The requests of an upload are the GET requests of its lookup and,
    after them, nothing, or one PUT broadcast, or one POST broadcast: no
    upload sends both, and none repeats a broadcast. While the lookup is
    pending the upload is pending and has sent the lookup only. *)
Theorem upload_sends_at_most_one_write `{External}
    (this : PBFTClient) (options : UploadOptions) (w : World) :
  let sent := requests (trace (Signed.upload this options w).2) in
  let gets := requests (trace w) ++ node_requests this (_path (email options)) "GET" None in
  (sent = gets
   ∨ ∃ method payload,
       (method = "PUT" ∨ method = "POST")
       ∧ sent = gets ++ node_requests this (Some "") method (Some payload))
  ∧ ((Signed.lookup this (email options) w).1 = Pending →
     (Signed.upload this options w).1 = Pending ∧ sent = gets).
Proof.
  intros sent gets. subst sent.
  pose proof (Signed_lookup_requests this (email options) w) as Hgets. fold gets in Hgets.
  rewrite upload_paths.
  assert (∀ e w', requests (trace w') = gets →
            let sent := requests (trace (upload_handler this options e w').2) in
            sent = gets
            ∨ ∃ method payload,
                (method = "PUT" ∨ method = "POST")
                ∧ sent = gets ++ node_requests this (Some "") method (Some payload))
    as Hhandler.
  { intros e w' Hw'. simpl.
    destruct (upload_handler_cases this options e w') as [[_ ->]|[_ ->]]; [by left|].
    destruct (post_branch_effects this options w') as ([payload Hsent] & _).
    right. exists "POST", payload. split; [by right|]. by rewrite Hsent, Hw'. }
  destruct (Signed.lookup this (email options) w) as [[|txt|e] w1]; cbn [fst snd] in *.
  - split; [by left|done].
  - split; [|done].
    pose proof (findPrivateKey_requests (email options) (publicKeyArmored options) w1) as Hfind.
    destruct (Signed.findPrivateKey (email options) (publicKeyArmored options) w1)
      as [[|key|e] w2]; cbn [fst snd] in *.
    + left. congruence.
    + rewrite Hgets in Hfind.
      destruct (sign _ key) as [|signature|e]; [by left| |by apply Hhandler].
      destruct (put_branch_effects this options key signature w2) as ([payload Hsent] & _).
      right. exists "PUT", payload. split; [by left|]. by rewrite Hsent, Hfind.
    + apply Hhandler. congruence.
  - split; [|done]. by apply Hhandler.
Qed.

(** The four nodes disagree about the address: the upload waits with its
    lookup, and has sent nothing else. *)
Lemma upload_sends_at_most_one_write_witness :
  let w := sample_world 4 [[found "X"; found "Y"; found "Z"; Silent]] [Some "SIG"] [] in
  let up := Signed.upload (constructor (cluster 4))
              {| email := "a@b.c"; publicKeyArmored := "NEW" |} w in
  up.1 = Pending
  ∧ requests (trace up.2)
    = requests (trace w)
      ++ node_requests (constructor (cluster 4)) (_path (H:=sample_external) "a@b.c") "GET" None.
Proof.
  intros w up.
  destruct (upload_sends_at_most_one_write (constructor (cluster 4))
              {| email := "a@b.c"; publicKeyArmored := "NEW" |} w) as [_ Hpending].
  apply Hpending. reflexivity.
Defined.

(** X7. Whatever path an upload takes, it calls [ring.removeKey] at most
    once. It does so only when it ends fulfilled after a PUT broadcast, and
    then the ring is the initial ring without one fingerprint; on every other
    path, the POST branch included, the ring is the initial ring and nothing
    is removed. *)
Theorem upload_keeps_ring_unless_committed `{External}
    (this : PBFTClient) (options : UploadOptions) (w : World) :
  let final := (Signed.upload this options w).2 in
  (ring final = ring w ∧ removals (trace final) = removals (trace w))
  ∨ ((∃ r, (Signed.upload this options w).1 = Fulfilled r)
     ∧ (∃ fp, ring final = removeKey (ring w) fp
              ∧ removals (trace final) = removals (trace w) ++ [fp])
     ∧ ∃ payload,
         requests (trace final)
         = requests (trace w) ++ node_requests this (_path (email options)) "GET" None
           ++ node_requests this (Some "") "PUT" (Some payload)).
Proof.
  intros final. subst final.
  destruct (Signed_lookup_frame this (email options) w) as (Hr1 & _ & _ & Ht1).
  pose proof (Signed_lookup_requests this (email options) w) as Hgets.
  rewrite upload_paths.
  assert (∀ e w', ring w' = ring w → removals (trace w') = removals (trace w) →
            ring (upload_handler this options e w').2 = ring w
            ∧ removals (trace (upload_handler this options e w').2) = removals (trace w))
    as Hhandler.
  { intros e w' Hring Hrem.
    destruct (upload_handler_cases this options e w') as [[_ ->]|[_ ->]]; [done|].
    destruct (post_branch_effects this options w') as (_ & -> & ->). done. }
  destruct (Signed.lookup this (email options) w) as [[|txt|e] w1]; cbn [fst snd] in *.
  - by left.
  - destruct (findPrivateKey_frame (email options) (publicKeyArmored options) w1)
      as (Hr2 & _ & Ht2).
    pose proof (findPrivateKey_requests (email options) (publicKeyArmored options) w1) as Hfind.
    destruct (Signed.findPrivateKey (email options) (publicKeyArmored options) w1)
      as [[|key|e] w2]; cbn [fst snd] in *.
    + left. split; congruence.
    + destruct (sign _ key) as [|signature|e].
      * left. cbn [snd]. split; congruence.
      * destruct (put_branch_effects this options key signature w2)
          as ([payload Hsent] & [[Hring Hrem]|(Hq & Hring & Hrem)]).
        -- left. split; congruence.
        -- right. split_and!; [done| |].
           ++ exists (fingerprint key). split; congruence.
           ++ exists payload. rewrite Hsent, Hfind, Hgets. by rewrite <-app_assoc.
      * left. apply Hhandler; congruence.
    + left. apply Hhandler; congruence.
  - left. by apply Hhandler.
Qed.

(** X8. In the found branch, when unlocking the old key or signing the
    payload fails, no PUT goes out. A failure that is not a text starting
    with "404", be it an error object or any other text, rejects the upload
    unchanged, in the world the search for the key left: only the lookup was
    sent and the ring is the initial ring. A failure that is a text starting
    with "404" is taken for an unknown address: the upload goes on as the
    POST branch does. *)
Theorem upload_stops_when_key_unusable `{External}
    (this : PBFTClient) (options : UploadOptions) (w : World)
    (found_text : JsonText) (e : Thrown) :
  let address := email options in
  let publicKey := publicKeyArmored options in
  let w1 := (Signed.lookup this address w).2 in
  let w2 := (Signed.findPrivateKey address publicKey w1).2 in
  (Signed.lookup this address w).1 = Fulfilled found_text →
  ((Signed.findPrivateKey address publicKey w1).1 = Rejected e
   ∨ ∃ key, (Signed.findPrivateKey address publicKey w1).1 = Fulfilled key
            ∧ sign (text_to_sign options (clock w2)) key = Rejected e) →
  ((∀ s, e = ThrownString s → startsWith s "404" = false) →
     Signed.upload this options w = (Rejected e, w2)
     ∧ requests (trace w2)
       = requests (trace w) ++ node_requests this (_path address) "GET" None
     ∧ ring w2 = ring w)
  ∧ (∀ s, e = ThrownString s → startsWith s "404" = true →
     Signed.upload this options w = post_branch this options w2).
Proof.
  intros address publicKey w1 w2 Hlookup Hfail.
  assert (Signed.upload this options w = upload_handler this options e w2) as ->.
  { rewrite upload_paths. fold address publicKey.
    rewrite (result_and_world _ _ Hlookup). fold w1.
    destruct Hfail as [Hfind|(key & Hfind & Hsign)];
      rewrite (result_and_world _ _ Hfind); fold w2; [done|by rewrite Hsign]. }
  split.
  - intros Hother. unfold upload_handler.
    assert (Signed.not_found e = false) as ->.
    { destruct e as [s| | |]; [|done..]. simpl. by apply Hother. }
    split_and!; [done| |].
    + subst w2. rewrite findPrivateKey_requests. apply Signed_lookup_requests.
    + destruct (findPrivateKey_frame address publicKey w1) as (Hring & _).
      fold w2 in Hring. rewrite Hring. apply Signed_lookup_frame.
  - intros s -> H404. unfold upload_handler. simpl. by rewrite H404.
Qed.

(** The old key is revoked and signing fails with a text: the upload is
    rejected with that text, and only the lookup was sent. *)
Lemma upload_stops_when_key_unusable_witness :
  let w := guarded_world 1 [[found "REVOKED"]; [found "stored"]] [Some "secret"]
             [{| sk_fingerprint := "REVOKED"; sk_owner := "a@b.c" |}] in
  let up := Signed.upload (constructor (cluster 1))
              {| email := "a@b.c"; publicKeyArmored := "NEW" |} w in
  up.1 = Rejected (ThrownString "Key is revoked")
  ∧ requests (trace up.2) = [("http://node0:8000?name=a%40b.c", "GET", None)].
Proof.
  intros w up.
  destruct (upload_stops_when_key_unusable (constructor (cluster 1))
              {| email := "a@b.c"; publicKeyArmored := "NEW" |} w
              (JSON_stringify (credential "a@b.c" (JStr "REVOKED")))
              (ThrownString "Key is revoked") eq_refl
              (or_intror (ex_intro _ {| sk_fingerprint := "REVOKED"; sk_owner := "a@b.c" |}
                            (conj eq_refl eq_refl)))) as [Hstop _].
  destruct Hstop as (Hup & Hsent & _).
  { intros s Hs. injection Hs as <-. reflexivity. }
  subst up. rewrite Hup. split; [reflexivity|]. etrans; [exact Hsent|reflexivity].
Defined.

(** The passphrase typed for the old key is wrong: the upload is rejected
    with the error of the unlocking, after the lookup and the prompt. *)
Example wrong_passphrase_sends_no_update :
  let w := guarded_world 1 [[found "OLD"]; [found "stored"]] [Some "guess"]
             [{| sk_fingerprint := "OLD"; sk_owner := "a@b.c" |}] in
  let up := Signed.upload (constructor (cluster 1))
              {| email := "a@b.c"; publicKeyArmored := "NEW" |} w in
  up.1 = Rejected (ThrownError "Wrong password")
  ∧ trace up.2 = [EvFetch "http://node0:8000?name=a%40b.c" "GET" None;
                  EvPrompt Signed.password_prompt].
Proof. split; reflexivity. Qed.

(** Signing fails with a text that starts with "404": the address, which
    the lookup found, is treated as unknown, and the payload is posted with
    the signature typed into the second prompt. *)
Example failure_text_taken_for_unknown_address :
  let w := guarded_world 1 [[found "CARD"]; [found "stored"]] [Some "secret"; Some "SIG"]
             [{| sk_fingerprint := "CARD"; sk_owner := "a@b.c" |}] in
  let up := Signed.upload (constructor (cluster 1))
              {| email := "a@b.c"; publicKeyArmored := "NEW" |} w in
  trace up.2
  = [EvFetch "http://node0:8000?name=a%40b.c" "GET" None;
     EvPrompt Signed.password_prompt;
     EvPrompt Signed.signature_prompt;
     EvFetch "http://node0:8000" "POST"
       (Some (JSON_stringify (JObj [("alias", JStr "a@b.c"); ("key", JStr "NEW");
                                    ("timestamp", JNum 1512875000000);
                                    ("signature", JStr "SIG")])))].
Proof. reflexivity. Qed.

(** X9. When the armored text handed to upload holds no key, the search for
    the old key fails before any prompt: with the ownership error if the ring
    has no private key for the address, and with the TypeError of reading
    the fingerprint of a key that is not there if it has one. An upload whose
    lookup was fulfilled is rejected with that error; only the lookup was
    sent. *)
Theorem upload_of_unreadable_key `{External}
    (this : PBFTClient) (options : UploadOptions) (w : World) (found_text : JsonText) :
  let address := email options in
  let publicKey := publicKeyArmored options in
  let w1 := (Signed.lookup this address w).2 in
  let failure :=
    match getKeyByAddress (ring w) address with
    | [] => ThrownError ("You do not own the key for the email " +:+ address
                         +:+ " so you cannot update it.")
    | _ :: _ => ThrownNative "TypeError"
    end in
  readArmored publicKey = [] →
  (∀ w0, Signed.findPrivateKey address publicKey w0
         = (Rejected (match getKeyByAddress (ring w0) address with
                      | [] => ThrownError ("You do not own the key for the email " +:+ address
                                           +:+ " so you cannot update it.")
                      | _ :: _ => ThrownNative "TypeError"
                      end), w0))
  ∧ ((Signed.lookup this address w).1 = Fulfilled found_text →
     Signed.upload this options w = (Rejected failure, w1)
     ∧ trace w1
       = trace w ++ map (fun node => EvFetch (node_url (_path address) node) "GET" None)
                      (nodes this)).
Proof.
  intros address publicKey w1 failure Hread.
  assert (∀ w0, Signed.findPrivateKey address publicKey w0
                = (Rejected (match getKeyByAddress (ring w0) address with
                             | [] => ThrownError ("You do not own the key for the email "
                                                  +:+ address +:+ " so you cannot update it.")
                             | _ :: _ => ThrownNative "TypeError"
                             end), w0)) as Hfind.
  { intros w0. unfold Signed.findPrivateKey. rewrite Hread. simpl.
    by destruct (getKeyByAddress (ring w0) address). }
  split; [done|]. intros Hlookup.
  destruct (Signed_lookup_frame this address w) as (Hring & _).
  split.
  - rewrite upload_paths. fold address publicKey.
    rewrite (result_and_world _ _ Hlookup). fold w1. rewrite Hfind.
    fold w1 in Hring. rewrite Hring. fold failure.
    unfold upload_handler.
    assert (Signed.not_found failure = false) as ->; [|done].
    subst failure. by destruct (getKeyByAddress (ring w) address).
  - subst w1. rewrite Signed_lookup_world. unfold Signed._broadcast. reflexivity.
Qed.

(** An upload of the empty text for an address whose key is in the ring. *)
Lemma upload_of_unreadable_key_witness :
  let w := guarded_world 1 [[found "OLD"]; [found "stored"]] [Some "secret"]
             [{| sk_fingerprint := "OLD"; sk_owner := "a@b.c" |}] in
  Signed.upload (constructor (cluster 1)) {| email := "a@b.c"; publicKeyArmored := "" |} w
  = (Rejected (ThrownNative "TypeError"),
     (Signed.lookup (constructor (cluster 1)) "a@b.c" w).2).
Proof.
  intros w.
  destruct (upload_of_unreadable_key (constructor (cluster 1))
              {| email := "a@b.c"; publicKeyArmored := "" |} w
              (JSON_stringify (credential "a@b.c" (JStr "OLD"))) eq_refl) as [_ Hup].
  destruct (Hup eq_refl) as [-> _]. reflexivity.
Defined.

(** ** The upload of [src/modules/pbftClient.js] and the wrapper *)

Lemma getPBFTClient_run `{External} w :
  _pbftClient w = None →
  KeyServer.getPBFTClient w
  = (match cluster_json w with
     | Fulfilled config => Fulfilled (constructor config)
     | Rejected e => Rejected e
     | Pending => Pending
     end, emit [EvFetchConfig] w).
Proof.
  intros Hnone. destruct (getPBFTClient_uncached w Hnone) as [Hw Hp].
  rewrite <-Hw, <-Hp. by destruct (KeyServer.getPBFTClient w).
Qed.

(** X10. The upload of pbftClient.js is one POST broadcast and nothing
    else: one request per node, to the path of the address, carrying the
    record with the armored key; no lookup before it, no prompt, no access to
    the key ring. It ends as the broadcast ends, a rejection wrapped as a
    message: when a Failure outcome completes the first quorum the upload
    rejects with the message made of its status and statusText. *)
Theorem plain_upload_is_one_post `{External}
    (this : PBFTClient) (options : UploadOptions) (w : World) :
  let payload :=
    JSON_stringify (JObj [
      ("keyId", JStr "keyid");
      ("fingerprint", JStr "fingerprint");
      ("userIds", JArr [JObj [("name", JStr "name"); ("email", JStr (email options));
                              ("verified", JBool true)]]);
      ("created", JStr "2017-12-10T03: 03: 08.000Z");
      ("uploaded", JStr "2017-12-10T03: 03: 20.763Z");
      ("algorithm", JStr "rsa_encrypt_sign");
      ("keySize", JNum 4096);
      ("publicKeyArmored", JStr (publicKeyArmored options))]) in
  let post := Plain._broadcast this (_path (email options)) (Some "POST") (Some payload) w in
  let final := (Plain.upload this options w).2 in
  Plain.upload this options w = (wrapped post.1, post.2)
  ∧ trace final
    = trace w ++ map (fun node => EvFetch (node_url (_path (email options)) node) "POST" (Some payload))
                   (nodes this)
  ∧ ring final = ring w ∧ answers final = answers w
  ∧ (∀ i o,
       reaches_quorum Plain.ResponseKey (F this) (votes Plain.readBody this w) i o →
       (∀ j o', (j < i)%nat →
          ¬ reaches_quorum Plain.ResponseKey (F this) (votes Plain.readBody this w) j o') →
       (Plain.upload this options w).1
       = match o with
         | Success code reason answer =>
             Fulfilled {| res_status := code; res_statusText := reason; res_body := answer |}
         | Failure code reason _ =>
             Rejected (ThrownMessage (ThrownString (tpl_num code +:+ " " +:+ tpl_str reason)))
         end).
Proof.
  intros payload post final.
  assert (Plain.upload this options w = (wrapped post.1, post.2)) as Hup.
  { unfold Plain.upload. fold payload. unfold catch_, then_, resolve, throw. fold post.
    by destruct post as [[| |] w']. }
  subst final. rewrite Hup. cbn [fst snd].
  destruct (fan_out_frame (Plain.processResponse (F this)) this (_path (email options))
              "POST" (Some payload) w) as (Hring & _ & _ & Hans & _ & Htrace & _).
  split_and!; try done.
  intros i o Hq Hfirst.
  destruct (plain_broadcast_settles_at_first_quorum this (_path (email options)) (Some "POST")
              (Some payload) w) as (Hb & _ & _ & _ & Hs).
  fold post in Hb. rewrite Hb, (Hs i o Hq Hfirst). by destruct o.
Qed.

(** Four nodes, three of which refuse the key. *)
Lemma plain_upload_is_one_post_witness :
  (Plain.upload (constructor (cluster 4)) {| email := "a@b.c"; publicKeyArmored := "NEW" |}
     (sample_world 4 [[refused 403 "Forbidden" "no"; found "ok"; refused 403 "Forbidden" "never";
                       refused 403 "Forbidden" ""]] [] [])).1
  = Rejected (ThrownMessage (ThrownString "403 Forbidden")).
Proof.
  destruct (plain_upload_is_one_post (constructor (cluster 4))
              {| email := "a@b.c"; publicKeyArmored := "NEW" |}
              (sample_world 4 [[refused 403 "Forbidden" "no"; found "ok";
                                refused 403 "Forbidden" "never"; refused 403 "Forbidden" ""]] [] []))
    as (_ & _ & _ & _ & Hq).
  apply (Hq 2%nat (Failure (Some 403%N) (Some "Forbidden") "")).
  - split; reflexivity.
  - intros j o Hj [Hat Hcount].
    destruct j as [|[|j]]; [| |lia]; vm_compute in Hat; injection Hat as <-;
      vm_compute in Hcount; discriminate.
Defined.

(** X11. When config/cluster.json cannot be fetched or parsed, no node is
    contacted. The upload of the wrapper is rejected with the error of the
    fetch, unchanged; its lookup, for a non-empty address, swallows the error
    and is fulfilled with undefined. With the configuration at hand the
    upload of the wrapper is the upload of a client made from it. *)
Theorem wrapper_without_configuration `{External}
    (uploading : UploadOptions) (looking : KeyServer.LookupOptions) (w : World) (e : Thrown) :
  _pbftClient w = None →
  (cluster_json w = Rejected e →
     KeyServer.upload uploading w = (Rejected e, emit [EvFetchConfig] w)
     ∧ (truthy (KeyServer.by_email looking) = true →
        KeyServer.lookup looking w = (Fulfilled None, emit [EvFetchConfig] w)))
  ∧ (cluster_json w = Pending →
     KeyServer.upload uploading w = (Pending, emit [EvFetchConfig] w)
     ∧ (truthy (KeyServer.by_email looking) = true →
        KeyServer.lookup looking w = (Pending, emit [EvFetchConfig] w)))
  ∧ (∀ config, cluster_json w = Fulfilled config →
       KeyServer.upload uploading w
       = Plain.upload (constructor config) uploading (emit [EvFetchConfig] w)).
Proof.
  intros Hnone. pose proof (getPBFTClient_run w Hnone) as Hget.
  split_and!.
  - intros Hconfig. rewrite Hconfig in Hget. split.
    + unfold KeyServer.upload, then_. by rewrite Hget.
    + intros Htruthy. unfold KeyServer.lookup. rewrite Htruthy. simpl.
      unfold catch_, then_. by rewrite Hget.
  - intros Hconfig. rewrite Hconfig in Hget. split.
    + unfold KeyServer.upload, then_. by rewrite Hget.
    + intros Htruthy. unfold KeyServer.lookup. rewrite Htruthy. simpl.
      unfold catch_, then_. by rewrite Hget.
  - intros config Hconfig. rewrite Hconfig in Hget.
    unfold KeyServer.upload, then_. by rewrite Hget.
Qed.

(** The configuration is not valid JSON: the upload fails with the parser's
    error, and the four nodes that would have answered are not asked. *)
Lemma wrapper_without_configuration_witness :
  let w := @Build_World sample_external [[found "X"; found "X"; found "X"; found "X"]] []
             1512875000000 (Rejected (ThrownNative "SyntaxError")) [] None [] in
  KeyServer.upload {| email := "a@b.c"; publicKeyArmored := "NEW" |} w
  = (Rejected (ThrownNative "SyntaxError"), emit [EvFetchConfig] w).
Proof.
  intros w.
  destruct (wrapper_without_configuration {| email := "a@b.c"; publicKeyArmored := "NEW" |}
              {| KeyServer.by_email := Some "a@b.c"; KeyServer.by_keyId := None;
                 KeyServer.by_fingerprint := None |} w (ThrownNative "SyntaxError") eq_refl)
    as (Hrejected & _ & _).
  by destruct (Hrejected eq_refl) as [-> _].
Defined.

(** X12. A lookup through the wrapper whose client lookup is fulfilled hands
    the agreed body, coerced to a string, to JSON.parse: it is fulfilled with
    the parsed value, and with undefined when the text does not parse, as is
    the case for every body that is an object. Its requests are one GET per
    node of the configuration. *)
Theorem wrapper_lookup_parses_body `{External}
    (options : KeyServer.LookupOptions) (w : World) (config : ClusterConfig) (r : QuorumSuccess) :
  let address := tpl_str (KeyServer.by_email options) in
  truthy (KeyServer.by_email options) = true →
  _pbftClient w = None →
  cluster_json w = Fulfilled config →
  (Plain.lookup (constructor config) address (emit [EvFetchConfig] w)).1 = Fulfilled r →
  (KeyServer.lookup options w).1 = Fulfilled (JSON_parse (ToString (res_body r)))
  ∧ requests (trace (KeyServer.lookup options w).2)
    = requests (trace w) ++ node_requests (constructor config) (_path address) "GET" None
  ∧ (∀ fields, res_body r = JObj fields → JSON_parse "[object Object]" = None →
       (KeyServer.lookup options w).1 = Fulfilled None).
Proof.
  intros address Htruthy Hnone Hconfig Hlookup.
  pose proof (getPBFTClient_run w Hnone) as Hget. rewrite Hconfig in Hget.
  assert (KeyServer.lookup options w
          = (Fulfilled (JSON_parse (ToString (res_body r))),
             (Plain.lookup (constructor config) address (emit [EvFetchConfig] w)).2)) as Hrun.
  { unfold KeyServer.lookup. rewrite Htruthy. simpl.
    unfold catch_ at 1. unfold then_ at 1 2. rewrite Hget. fold address.
    rewrite (result_and_world _ _ Hlookup).
    by destruct (JSON_parse (ToString (res_body r))). }
  rewrite Hrun. cbn [fst snd]. split_and!; [done| |].
  - unfold Plain.lookup, catch_, then_, resolve, throw.
    assert (requests (trace (Plain._broadcast (constructor config) (_path address) None None
                               (emit [EvFetchConfig] w)).2)
            = requests (trace w) ++ node_requests (constructor config) (_path address) "GET" None)
      as Hsent.
    { unfold Plain._broadcast.
      destruct (fan_out_frame (Plain.processResponse (F (constructor config)))
                  (constructor config) (_path address) "GET" None (emit [EvFetchConfig] w))
        as (_ & _ & _ & _ & _ & -> & _).
      rewrite requests_app, requests_node_fetches.
      change (trace (emit [EvFetchConfig] w)) with (trace w ++ [EvFetchConfig]).
      rewrite requests_app. simpl. by rewrite app_nil_r. }
    destruct (Plain._broadcast _ _ _ _ _) as [[| |] w']; exact Hsent.
  - intros fields Hbody Hparse. rewrite Hbody. simpl. by rewrite Hparse.
Qed.

(** One node answers with the JSON text [true] as the stored value. *)
Lemma wrapper_lookup_parses_body_witness :
  (KeyServer.lookup {| KeyServer.by_email := Some "a@b.c"; KeyServer.by_keyId := None;
                       KeyServer.by_fingerprint := None |}
     (sample_world 1 [[found "true"]] [] [])).1
  = Fulfilled (Some (JBool true)).
Proof.
  apply (wrapper_lookup_parses_body
           {| KeyServer.by_email := Some "a@b.c"; KeyServer.by_keyId := None;
              KeyServer.by_fingerprint := None |}
           (sample_world 1 [[found "true"]] [] []) (cluster 1)
           {| res_status := Some 200%N; res_statusText := Some "OK"; res_body := JStr "true" |});
    reflexivity.
Defined.

Example wrapper_lookup_of_an_object :
  (KeyServer.lookup {| KeyServer.by_email := Some "a@b.c"; KeyServer.by_keyId := None;
                       KeyServer.by_fingerprint := None |}
     (sample_world 1 [[Answers 120 (httpResponse 200 "OK"
                                      (Some (JObj [("publicKeyArmored", JStr "X")])) None)]]
        [] [])).1
  = Fulfilled None.
Proof. reflexivity. Qed.

(** X13. An answer whose body cannot be read is no vote. The signed revision
    counts nothing for a response with an ok status whose body is not JSON,
    nor for a failure whose text cannot be read; when every node answers in
    that way the broadcast stays pending, although every node has answered
    and no timer will reject it. The revision of pbftClient.js, which does not
    read the body of a failure, counts every failure. *)
Theorem unreadable_answers_are_no_votes `{External}
    (this : PBFTClient) (path method : option string) (body : option Json) (w : World) :
  (∀ r, Signed.readBody r = None
        ↔ (ok r = true ∧ json r = None) ∨ (ok r = false ∧ text r = Some None))
  ∧ (∀ r, Plain.readBody r = None ↔ ok r = true ∧ json r = None)
  ∧ (Forall (fun r => Signed.readBody r = None) (deliveries (length (nodes this)) w) →
     (Signed._broadcast this path method body w).1 = Pending).
Proof.
  split_and!.
  - intros r. unfold Signed.readBody.
    destruct (ok r), (json r), (text r) as [[?|]|]; intuition congruence.
  - intros r. unfold Plain.readBody. destruct (ok r), (json r); intuition congruence.
  - intros Hall. rewrite broadcast_is_aggregate. unfold votes.
    assert (omap Signed.readBody (deliveries (length (nodes this)) w) = []) as ->; [|done].
    induction Hall as [|r rs Hr _ IH]; [done|]. csimpl. by rewrite Hr.
Qed.

(** Four nodes answer at once with status 200 and a page that is not JSON. *)
Lemma unreadable_answers_are_no_votes_witness :
  (Signed._broadcast (constructor (cluster 4)) (Some "?name=a") None None
     (sample_world 4 [replicate 4 (Answers 120 (httpResponse 200 "OK" None (Some "<html>")))]
        [] [])).1 = Pending.
Proof.
  apply (unreadable_answers_are_no_votes (constructor (cluster 4)) (Some "?name=a") None None
           (sample_world 4 [replicate 4 (Answers 120 (httpResponse 200 "OK" None (Some "<html>")))]
              [] [])).
  repeat constructor.
Defined.

(** ** Removal through the wrapper *)

Lemma ok_is_checked_status code reason parsed raw :
  ok (httpResponse code reason parsed raw)
  = bool_decide (200 ≤ code)%N && bool_decide (code < 300)%N.
Proof.
  unfold httpResponse. simpl.
  destruct (bool_decide_reflect (200 ≤ code ≤ 299)%N),
    (bool_decide_reflect (200 ≤ code)%N), (bool_decide_reflect (code < 300)%N); simpl; lia.
Qed.

(** X14. A removal is one DELETE request to the URL of its options: the
    key directory is not configured or asked, nothing is typed and the key
    ring is not touched. There is no timer: however late the server answers,
    the removal succeeds with the response exactly if its status is one the
    broadcast would count as a success (200 to 299), and otherwise fails with
    an Error that carries the statusText as message and the response; while
    the server is silent the removal is pending. *)
Theorem remove_checks_status `{External}
    (baseUrl : option string) (options : option KeyServer.LookupOptions) (w : World) :
  let run := KeyServer.remove baseUrl options w in
  trace run.2 = trace w ++ [EvFetch (KeyServer._url baseUrl options) "DELETE" None]
  ∧ config_fetches (trace run.2) = config_fetches (trace w)
  ∧ ring run.2 = ring w ∧ answers run.2 = answers w
  ∧ (∀ elapsed code reason parsed raw rest,
       default [] (head (inbox w)) = Answers elapsed (httpResponse code reason parsed raw) :: rest →
       run.1 = if ok (httpResponse code reason parsed raw)
               then KeyServer.Removed (httpResponse code reason parsed raw)
               else KeyServer.RemovalRefused reason (httpResponse code reason parsed raw))
  ∧ (∀ rest, default [] (head (inbox w)) = Silent :: rest → run.1 = KeyServer.RemovalPending).
Proof.
  intros run. subst run.
  assert (trace (KeyServer.remove baseUrl options w).2
          = trace w ++ [EvFetch (KeyServer._url baseUrl options) "DELETE" None]) as Htrace.
  { unfold KeyServer.remove.
    by destruct (head (default [] (head (inbox w)))) as [[? r|]|];
      [destruct (status r); [destruct (KeyServer._checkStatus r)|]| |]. }
  split_and!; [done| | | | |].
  - rewrite Htrace, config_fetches_app. unfold config_fetches. simpl. lia.
  - unfold KeyServer.remove. by destruct (head (default [] (head (inbox w)))) as [[? r|]|];
      [destruct (status r); [destruct (KeyServer._checkStatus r)|]| |].
  - unfold KeyServer.remove.
    by destruct (head (default [] (head (inbox w)))) as [[? r|]|];
      [destruct (status r); [destruct (KeyServer._checkStatus r)|]| |].
  - intros elapsed code reason parsed raw rest Hanswer. unfold KeyServer.remove.
    rewrite Hanswer, ok_is_checked_status. unfold KeyServer._checkStatus. simpl.
    by destruct (bool_decide (200 ≤ code)%N && bool_decide (code < 300)%N).
  - intros rest Hsilent. unfold KeyServer.remove. by rewrite Hsilent.
Qed.

(** The server answers the removal after eight seconds with 404. *)
Lemma remove_checks_status_witness :
  (KeyServer.remove (Some "https://keys.example.org")
     (Some {| KeyServer.by_email := Some "a@b.c"; KeyServer.by_keyId := None;
              KeyServer.by_fingerprint := None |})
     (sample_world 0 [[Answers 8000 (httpResponse 404 "Not Found" None (Some "no such key"))]]
        [] [])).1
  = KeyServer.RemovalRefused "Not Found" (httpResponse 404 "Not Found" None (Some "no such key")).
Proof.
  destruct (remove_checks_status (Some "https://keys.example.org")
              (Some {| KeyServer.by_email := Some "a@b.c"; KeyServer.by_keyId := None;
                       KeyServer.by_fingerprint := None |})
              (sample_world 0
                 [[Answers 8000 (httpResponse 404 "Not Found" None (Some "no such key"))]] [] []))
    as (_ & _ & _ & _ & Hanswer & _).
  apply (Hanswer 8000%N 404%N "Not Found" None (Some "no such key") []). reflexivity.
Defined.

Lemma string_app_empty (s : string) : s +:+ "" = s.
Proof.
  induction s as [|a s IH]; [done|].
  change (String a (s +:+ "") = String a s). by rewrite IH.
Qed.

(** X15. The URL of a request is the base path followed by at most one
    query, which names the first of email, fingerprint and key id that is
    there and not empty, with its escaped value: two sets of options with the
    same first identifier have the same URL, so with a non-empty email the
    other two do not matter, and with no email and a non-empty fingerprint
    the key id does not matter. With none of the three, or no options at
    all, the URL is the bare path. Nothing assigns the base URL, which is
    part of every URL as it is. *)
Theorem url_names_one_identifier `{External}
    (baseUrl : option string) (o o' : KeyServer.LookupOptions) :
  let base := tpl_str baseUrl +:+ "/api/v1/key" in
  KeyServer._url baseUrl None = base
  ∧ KeyServer._url baseUrl (Some o)
    = base +:+ match named_identifier o with
               | Some (name, value) => "?" +:+ name +:+ "=" +:+ encodeURIComponent value
               | None => ""
               end
  ∧ (named_identifier o' = named_identifier o →
     KeyServer._url baseUrl (Some o') = KeyServer._url baseUrl (Some o))
  ∧ (truthy (KeyServer.by_email o) = true →
     KeyServer.by_email o' = KeyServer.by_email o →
     KeyServer._url baseUrl (Some o') = KeyServer._url baseUrl (Some o)
     ∧ KeyServer._url baseUrl (Some o)
       = base +:+ "?email=" +:+ encodeURIComponent (tpl_str (KeyServer.by_email o)))
  ∧ (truthy (KeyServer.by_email o) = false → truthy (KeyServer.by_email o') = false →
     truthy (KeyServer.by_fingerprint o) = true →
     KeyServer.by_fingerprint o' = KeyServer.by_fingerprint o →
     KeyServer._url baseUrl (Some o') = KeyServer._url baseUrl (Some o)
     ∧ KeyServer._url baseUrl (Some o)
       = base +:+ "?fingerprint=" +:+ encodeURIComponent (tpl_str (KeyServer.by_fingerprint o)))
  ∧ (truthy (KeyServer.by_email o) = false → truthy (KeyServer.by_fingerprint o) = false →
     KeyServer._url baseUrl (Some o)
     = if truthy (KeyServer.by_keyId o)
       then base +:+ "?keyId=" +:+ encodeURIComponent (tpl_str (KeyServer.by_keyId o))
       else base).
Proof.
  intros base.
  assert (∀ x, KeyServer._url baseUrl (Some x)
               = base +:+ match named_identifier x with
                          | Some (name, value) =>
                              "?" +:+ name +:+ "=" +:+ encodeURIComponent value
                          | None => ""
                          end) as Hurl.
  { intros x. unfold KeyServer._url, named_identifier. fold base. csimpl.
    destruct (truthy (KeyServer.by_email x)); [done|].
    destruct (truthy (KeyServer.by_fingerprint x)); [done|].
    destruct (truthy (KeyServer.by_keyId x)); [done|].
    simpl. by rewrite string_app_empty. }
  split_and!.
  - done.
  - apply Hurl.
  - intros Hsame. by rewrite !Hurl, Hsame.
  - intros Hemail Hsame. unfold KeyServer._url. fold base. by rewrite Hsame, Hemail.
  - intros Hnone Hnone' Hfp Hsame. unfold KeyServer._url. fold base.
    by rewrite Hnone, Hnone', Hsame, Hfp.
  - intros Hnone Hnofp. unfold KeyServer._url. fold base. by rewrite Hnone, Hnofp.
Qed.

(** An empty email, a fingerprint written with a space, and a key id: the
    fingerprint is the one named, escaped, on an object whose base URL was
    never set. *)
Lemma url_names_one_identifier_witness :
  KeyServer._url (H:=sample_external) None
    (Some {| KeyServer.by_email := Some ""; KeyServer.by_keyId := Some "0123456789ABCDEF";
             KeyServer.by_fingerprint := Some "AB CD" |})
  = "undefined/api/v1/key?fingerprint=AB%20CD".
Proof.
  destruct (url_names_one_identifier (H:=sample_external) None
              {| KeyServer.by_email := Some ""; KeyServer.by_keyId := Some "0123456789ABCDEF";
                 KeyServer.by_fingerprint := Some "AB CD" |}
              {| KeyServer.by_email := None; KeyServer.by_keyId := None;
                 KeyServer.by_fingerprint := Some "AB CD" |})
    as (_ & -> & _).
  reflexivity.
Defined.

(** The escaping of the scenarios on the characters of addresses, of a
    space, of a reserved mark and of a text outside ASCII (the two bytes
    of U+00E9). *)
Example escaping_of_the_scenarios :
  percent_encode "a.b-c_d@e.org" = "a.b-c_d%40e.org"
  ∧ percent_encode "AB CD" = "AB%20CD"
  ∧ percent_encode "a+b&c=d/e?f" = "a%2Bb%26c%3Dd%2Fe%3Ff"
  ∧ percent_encode (String (ascii_of_N 195) (String (ascii_of_N 169) "")) = "%C3%A9".
Proof. split_and!; reflexivity. Qed.

(** ** The upload of the revision without signatures *)

Lemma Unsigned_broadcast_frame `{External} this path method body w :
  let w' := (Unsigned._broadcast this path method body w).2 in
  ring w' = ring w ∧ answers w' = answers w ∧ clock w' = clock w
  ∧ removals (trace w') = removals (trace w)
  ∧ requests (trace w')
    = requests (trace w)
      ++ node_requests this path (match body with Some _ => default "GET" method | None => "GET" end)
           body.
Proof.
  unfold Unsigned._broadcast.
  destruct body as [text|]; simpl; split_and!; try reflexivity;
    rewrite ?removals_app, ?removals_fetches, ?requests_app, ?requests_node_fetches, ?app_nil_r;
    reflexivity.
Qed.

(** X16. In the revision without signatures an upload looks the address up
    and then sends the unsigned record of alias, key and timestamp: with PUT
    when the lookup was fulfilled, with POST after the prompt when the lookup
    failed with a text starting with "404". What is typed into the prompt is
    not part of the request. A PUT broadcast that is rejected does not reach
    the caller as a message: the last handler calls startsWith on the
    wrapping object, and the upload rejects with a TypeError. The key ring is
    never touched. *)
Theorem unsigned_upload_paths `{External}
    (this : PBFTClient) (options : UploadOptions) (w : World) :
  let address := email options in
  let publicKey := publicKeyArmored options in
  let w1 := (Unsigned.lookup this address w).2 in
  let payload :=
    JSON_stringify (JObj [("alias", JStr address); ("key", JStr publicKey);
                          ("timestamp", JNum (Z.of_N (clock w)))]) in
  let gets := requests (trace w) ++ node_requests this (_path address) "GET" None in
  let final := (Unsigned.upload this options w).2 in
  (∀ found_text, (Unsigned.lookup this address w).1 = Fulfilled found_text →
     let put := Unsigned._broadcast this (Some "") (Some "PUT") (Some payload) w1 in
     Unsigned.upload this options w
     = (match put.1 with
        | Rejected _ => Rejected (ThrownNative "TypeError")
        | other => other
        end, put.2)
     ∧ requests (trace final) = gets ++ node_requests this (Some "") "PUT" (Some payload))
  ∧ (∀ s, (Unsigned.lookup this address w).1 = Rejected (ThrownString s) →
     startsWith s "404" = true →
     let post :=
       Unsigned._broadcast this (Some "") (Some "POST") (Some payload)
         (next_answer (emit [EvPrompt Signed.signature_prompt] w1)) in
     Unsigned.upload this options w = (wrapped post.1, post.2)
     ∧ requests (trace final) = gets ++ node_requests this (Some "") "POST" (Some payload))
  ∧ (∀ s, (Unsigned.lookup this address w).1 = Rejected (ThrownString s) →
     startsWith s "404" = false →
     Unsigned.upload this options w = (Rejected (ThrownString s), w1))
  ∧ ((Unsigned.lookup this address w).1 = Pending →
     Unsigned.upload this options w = (Pending, w1)).
Proof.
  intros address publicKey w1 payload gets final.
  assert (clock w1 = clock w ∧ requests (trace w1) = gets) as [Hclock Hgets].
  { subst w1. rewrite Unsigned_lookup_is_Signed. split.
    - apply Signed_lookup_frame.
    - apply Signed_lookup_requests. }
  split_and!.
  - intros found_text Hlookup put.
    pose proof (result_and_world _ _ Hlookup) as Hl. fold w1 in Hl.
    assert (Unsigned.upload this options w
            = (match put.1 with
               | Rejected _ => Rejected (ThrownNative "TypeError")
               | other => other
               end, put.2)) as Hup.
    { unfold Unsigned.upload. fold address publicKey.
      unfold catch_ at 1. unfold then_ at 1. rewrite Hl.
      unfold Unsigned.constructKeyPayload, catch_, then_, Date_now, resolve, throw.
      cbn beta iota. rewrite Hclock. fold payload. fold put.
      by destruct put as [[|r|e] w3]. }
    split; [done|]. subst final. rewrite Hup. cbn [snd]. subst put.
    destruct (Unsigned_broadcast_frame this (Some "") (Some "PUT") (Some payload) w1)
      as (_ & _ & _ & _ & ->).
    by rewrite Hgets.
  - intros s Hlookup H404 post.
    pose proof (result_and_world _ _ Hlookup) as Hl. fold w1 in Hl.
    assert (Unsigned.upload this options w = (wrapped post.1, post.2)) as Hup.
    { unfold Unsigned.upload. fold address publicKey.
      unfold catch_ at 1. unfold then_ at 1. rewrite Hl, H404.
      unfold Unsigned.constructKeyPayload, catch_, then_, prompt, Date_now, resolve, throw.
      cbn beta iota.
      change (clock (next_answer (emit [EvPrompt Signed.signature_prompt] w1))) with (clock w1).
      rewrite Hclock. fold payload. fold post.
      by destruct post as [[|r|e] w3]. }
    split; [done|]. subst final. rewrite Hup. cbn [snd]. subst post.
    destruct (Unsigned_broadcast_frame this (Some "") (Some "POST") (Some payload)
                (next_answer (emit [EvPrompt Signed.signature_prompt] w1)))
      as (_ & _ & _ & _ & ->).
    change (trace (next_answer (emit [EvPrompt Signed.signature_prompt] w1)))
      with (trace w1 ++ [EvPrompt Signed.signature_prompt]).
    rewrite requests_app. simpl. by rewrite app_nil_r, Hgets.
  - intros s Hlookup H404.
    pose proof (result_and_world _ _ Hlookup) as Hl. fold w1 in Hl.
    unfold Unsigned.upload. fold address publicKey.
    unfold catch_ at 1. unfold then_ at 1. by rewrite Hl, H404.
  - intros Hlookup.
    pose proof (result_and_world _ _ Hlookup) as Hl. fold w1 in Hl.
    unfold Unsigned.upload. fold address publicKey.
    unfold catch_ at 1. unfold then_ at 1. by rewrite Hl.
Qed.

(** The address is known and the node refuses the update: the caller sees
    a TypeError, not the refusal. *)
Lemma unsigned_upload_paths_witness :
  (Unsigned.upload (constructor (cluster 1)) {| email := "a@b.c"; publicKeyArmored := "NEW" |}
     (sample_world 1 [[found "OLD"]; [refused 403 "Forbidden" "not yours"]] [] [])).1
  = Rejected (ThrownNative "TypeError").
Proof.
  destruct (unsigned_upload_paths (constructor (cluster 1))
              {| email := "a@b.c"; publicKeyArmored := "NEW" |}
              (sample_world 1 [[found "OLD"]; [refused 403 "Forbidden" "not yours"]] [] []))
    as (Hput & _).
  destruct (Hput (JSON_stringify (credential "a@b.c" (JStr "OLD"))) eq_refl) as [-> _].
  reflexivity.
Defined.

Example unsigned_upload_drops_the_signature :
  let send typed :=
    requests (trace (Unsigned.upload (constructor (cluster 1))
                       {| email := "a@b.c"; publicKeyArmored := "NEW" |}
                       (sample_world 1 [[refused 404 "Not Found" ""]; [found "stored"]]
                          [typed] [])).2) in
  send (Some "SIG") = send None
  ∧ send (Some "SIG")
    = [("http://node0:8000?name=a%40b.c", "GET", None);
       ("http://node0:8000", "POST",
        Some (JSON_stringify (JObj [("alias", JStr "a@b.c"); ("key", JStr "NEW");
                                    ("timestamp", JNum 1512875000000)])))].
Proof. split; reflexivity. Qed.

(** ** A cluster that is down, seen by the callers *)

Lemma plain_silent_broadcast `{External} config path method body w :
  (1 ≤ length (config_nodes config))%nat →
  Forall (fun a => race a = timeoutObject) (default [] (head (inbox w))) →
  (Plain._broadcast (constructor config) path method body w).1
  = Rejected (ThrownString "520 Request Timeout").
Proof.
  intros Hn Hall. destruct (unanimity_is_quorum config Hn) as [HF0 HFn].
  rewrite plain_broadcast_is_aggregate, votes_all_timeouts by done.
  unfold promise_of.
  by rewrite (unanimous_settlement Plain.ResponseKey plain_verdict Plain.countOutcome
                plain_countOutcome_map plain_countOutcome_settled plain_countOutcome_latch).
Qed.

(** X17. When no node of a cluster of at least one node answers in time, an
    upload of the signed revision is rejected with "520 Request Timeout "
    after its lookup: nothing is asked of the user and no PUT or POST is
    sent. Through the wrapper, whose client rejects a broadcast with
    "520 Request Timeout", an upload is rejected with that text as message
    and a lookup is fulfilled with undefined. *)
Theorem silent_cluster_seen_by_callers `{External}
    (config : ClusterConfig) (uploading : UploadOptions) (looking : KeyServer.LookupOptions)
    (w : World) :
  let this := constructor config in
  (1 ≤ length (nodes this))%nat →
  Forall (fun a => race a = timeoutObject) (default [] (head (inbox w))) →
  Signed.upload this uploading w
  = (Rejected (ThrownString "520 Request Timeout "),
     (Signed.lookup this (email uploading) w).2)
  ∧ answers (Signed.upload this uploading w).2 = answers w
  ∧ requests (trace (Signed.upload this uploading w).2)
    = requests (trace w) ++ node_requests this (_path (email uploading)) "GET" None
  ∧ (_pbftClient w = None → cluster_json w = Fulfilled config →
     (KeyServer.upload uploading w).1
     = Rejected (ThrownMessage (ThrownString "520 Request Timeout"))
     ∧ (truthy (KeyServer.by_email looking) = true →
        (KeyServer.lookup looking w).1 = Fulfilled None)).
Proof.
  intros this Hn Hall.
  destruct (unanimity_is_quorum config Hn) as [HF0 HFn]. fold this in HF0, HFn.
  assert (Signed.upload this uploading w
          = (Rejected (ThrownString "520 Request Timeout "),
             (Signed.lookup this (email uploading) w).2)) as Hup.
  { assert ((Signed._broadcast this (_path (email uploading)) None None w).1
            = Rejected (ThrownString "520 Request Timeout ")) as Hdown.
    { rewrite broadcast_is_aggregate, votes_all_timeouts by done.
      unfold promise_of.
      by rewrite (unanimous_settlement Signed.ResponseKey verdict Signed.countOutcome
                    countOutcome_map countOutcome_settled countOutcome_latch). }
    rewrite upload_paths, (Signed_lookup_rejected _ _ _ _ Hdown). done. }
  rewrite Hup. cbn [snd]. split_and!; [done| | |].
  - apply Signed_lookup_frame.
  - apply Signed_lookup_requests.
  - intros Hnone Hconfig.
    pose proof (getPBFTClient_run w Hnone) as Hget. rewrite Hconfig in Hget.
    split.
    + unfold KeyServer.upload, then_. rewrite Hget.
      unfold Plain.upload, catch_, then_.
      pose proof (plain_silent_broadcast config (_path (email uploading)) (Some "POST")
                    (Some (JSON_stringify (JObj [
                       ("keyId", JStr "keyid");
                       ("fingerprint", JStr "fingerprint");
                       ("userIds", JArr [JObj [("name", JStr "name");
                                               ("email", JStr (email uploading));
                                               ("verified", JBool true)]]);
                       ("created", JStr "2017-12-10T03: 03: 08.000Z");
                       ("uploaded", JStr "2017-12-10T03: 03: 20.763Z");
                       ("algorithm", JStr "rsa_encrypt_sign");
                       ("keySize", JNum 4096);
                       ("publicKeyArmored", JStr (publicKeyArmored uploading))])))
                    (emit [EvFetchConfig] w) Hn Hall) as Hdown.
      apply result_and_world in Hdown. by rewrite Hdown.
    + intros Htruthy. unfold KeyServer.lookup. rewrite Htruthy. simpl.
      unfold catch_ at 1. unfold then_ at 1 2. rewrite Hget.
      pose proof (plain_silent_broadcast config
                    (_path (tpl_str (KeyServer.by_email looking))) None None
                    (emit [EvFetchConfig] w) Hn Hall) as Hdown.
      by rewrite (Plain_lookup_rejected _ _ _ _ Hdown).
Qed.

(** Four nodes, none of which answers. *)
Lemma silent_cluster_seen_by_callers_witness :
  (KeyServer.upload {| email := "a@b.c"; publicKeyArmored := "NEW" |}
     (sample_world 4 [[Silent; Silent; Silent; Silent]] [] [])).1
  = Rejected (ThrownMessage (ThrownString "520 Request Timeout")).
Proof.
  destruct (silent_cluster_seen_by_callers (cluster 4)
              {| email := "a@b.c"; publicKeyArmored := "NEW" |}
              {| KeyServer.by_email := Some "a@b.c"; KeyServer.by_keyId := None;
                 KeyServer.by_fingerprint := None |}
              (sample_world 4 [[Silent; Silent; Silent; Silent]] [] []))
    as (_ & _ & _ & Hwrapper).
  - vm_compute. lia.
  - repeat constructor.
  - by destruct (Hwrapper eq_refl eq_refl) as [-> _].
Defined.

(** ** The order in which the answers arrive *)

Lemma tally_Permutation (key : NodeOutcome → string) k os os' :
  os ≡ₚ os' → tally key k os = tally key k os'.
Proof. intros Hperm. unfold tally. by rewrite Hperm. Qed.

Section Order.

Variable key : NodeOutcome → string.
Variable outcome_verdict : NodeOutcome → QuorumResult.
Variable count : Z → NodeOutcome → BroadcastState → BroadcastState.

Hypothesis count_map : ∀ F o st,
  responseMap (count F o st)
  = <[key o := proxy_get (responseMap st) (key o) + 1]> (responseMap st).
Hypothesis count_settled : ∀ F o st,
  settled (count F o st)
  = settled st ++
    (if bool_decide (proxy_get (responseMap st) (key o) + 1 = F + 1) && negb (promiseResolved st)
     then [outcome_verdict o] else []).
Hypothesis count_latch : ∀ F o st,
  promiseResolved (count F o st)
  = promiseResolved st || bool_decide (proxy_get (responseMap st) (key o) + 1 = F + 1).

(** A call is settled exactly if some key has more than F votes. *)
Lemma settled_iff_enough_votes F os :
  0 ≤ F →
  settled (aggregate count F os) ≠ [] ↔ ∃ k, F + 1 ≤ tally key k os.
Proof.
  intros HF.
  destruct (aggregate_settlement key outcome_verdict count count_map count_settled count_latch
              F os) as (_ & _ & -> & _).
  split.
  - intros (i & o & _ & Hq). exists (key o).
    pose proof (tally_take_le key (key o) (S i) os). lia.
  - intros (k & Hk). destruct (quorum_exists key F k os HF Hk) as (i & o & Hq & _). eauto.
Qed.

Lemma order_of_arrival F os os' :
  0 ≤ F → os ≡ₚ os' →
  (∀ k, proxy_get (responseMap (aggregate count F os)) k
        = proxy_get (responseMap (aggregate count F os')) k)
  ∧ (settled (aggregate count F os) ≠ [] ↔ settled (aggregate count F os') ≠ []).
Proof.
  intros HF Hperm. split.
  - intros k. rewrite !(aggregate_counts key count count_map).
    by apply tally_Permutation.
  - rewrite !settled_iff_enough_votes by done.
    split; intros [k Hk]; exists k; by rewrite (tally_Permutation key k _ _ Hperm) in *.
Qed.

End Order.

(** X18. The order in which the answers of the nodes are counted decides
    neither the final counters nor whether the call is settled, in both
    revisions: a call stays pending exactly if no key is counted more than F
    times. *)
Theorem arrival_order_keeps_counters_and_settlement
    (F : Z) (outcomes outcomes' : list NodeOutcome) :
  0 ≤ F → outcomes ≡ₚ outcomes' →
  (∀ k, proxy_get (responseMap (aggregate Signed.countOutcome F outcomes)) k
        = proxy_get (responseMap (aggregate Signed.countOutcome F outcomes')) k)
  ∧ (promise_of (aggregate Signed.countOutcome F outcomes) = Pending
     ↔ promise_of (aggregate Signed.countOutcome F outcomes') = Pending)
  ∧ (promise_of (aggregate Signed.countOutcome F outcomes) = Pending
     ↔ ∀ k, tally Signed.ResponseKey k outcomes ≤ F)
  ∧ (∀ k, proxy_get (responseMap (aggregate Plain.countOutcome F outcomes)) k
          = proxy_get (responseMap (aggregate Plain.countOutcome F outcomes')) k)
  ∧ (promise_of (aggregate Plain.countOutcome F outcomes) = Pending
     ↔ promise_of (aggregate Plain.countOutcome F outcomes') = Pending)
  ∧ (promise_of (aggregate Plain.countOutcome F outcomes) = Pending
     ↔ ∀ k, tally Plain.ResponseKey k outcomes ≤ F).
Proof.
  intros HF Hperm.
  assert (∀ st, promise_of st = Pending ↔ ¬ settled st ≠ []) as Hpending.
  { intros st. unfold promise_of.
    destruct (settled st) as [|[r|e] rest].
    - split; [intros _ Hne; by apply Hne|done].
    - split; [done|intros Hnot; exfalso; by apply Hnot].
    - split; [done|intros Hnot; exfalso; by apply Hnot]. }
  destruct (order_of_arrival Signed.ResponseKey verdict Signed.countOutcome
              countOutcome_map countOutcome_settled countOutcome_latch F outcomes outcomes'
              HF Hperm) as [Hcount Hsettled].
  destruct (order_of_arrival Plain.ResponseKey plain_verdict Plain.countOutcome
              plain_countOutcome_map plain_countOutcome_settled plain_countOutcome_latch
              F outcomes outcomes' HF Hperm) as [Hcount' Hsettled'].
  split_and!; [done| | |done| |].
  - rewrite !Hpending. tauto.
  - rewrite Hpending.
    rewrite (settled_iff_enough_votes Signed.ResponseKey verdict Signed.countOutcome
               countOutcome_map countOutcome_settled countOutcome_latch) by done.
    split.
    + intros Hnone k. destruct (decide (tally Signed.ResponseKey k outcomes ≤ F)); [done|].
      destruct Hnone. exists k. lia.
    + intros Hall [k Hk]. specialize (Hall k). lia.
  - rewrite !Hpending. tauto.
  - rewrite Hpending.
    rewrite (settled_iff_enough_votes Plain.ResponseKey plain_verdict Plain.countOutcome
               plain_countOutcome_map plain_countOutcome_settled plain_countOutcome_latch)
      by done.
    split.
    + intros Hnone k. destruct (decide (tally Plain.ResponseKey k outcomes ≤ F)); [done|].
      destruct Hnone. exists k. lia.
    + intros Hall [k Hk]. specialize (Hall k). lia.
Qed.

(** Four nodes, two for X and two for Y: the call is settled in both orders. *)
Lemma arrival_order_keeps_counters_and_settlement_witness :
  let x := Success (Some 200%N) (Some "OK") (JStr "X") in
  let y := Success (Some 200%N) (Some "OK") (JStr "Y") in
  (promise_of (aggregate Signed.countOutcome 1 [x; x; y; y]) = Pending
   ↔ promise_of (aggregate Signed.countOutcome 1 [y; y; x; x]) = Pending)
  ∧ promise_of (aggregate Signed.countOutcome 1 [x; x; y; y]) ≠ Pending.
Proof.
  intros x y. split; [|discriminate].
  apply (arrival_order_keeps_counters_and_settlement 1 [x; x; y; y] [y; y; x; x]).
  - lia.
  - apply (Permutation_app_comm [x; x] [y; y]).
Defined.

(** What the call is settled with does depend on the order. With two keys
    of two votes each, the key whose second vote is counted first settles the
    call; with one key, the outcome counted second does, and two outcomes of
    one key need not have the same body. *)
Example arrival_order_decides_the_result :
  let x := Success (Some 200%N) (Some "OK") (JStr "X") in
  let y := Success (Some 200%N) (Some "OK") (JStr "Y") in
  let a := Success (Some 200%N) (Some "OK") (JObj [("key", JStr "A")]) in
  let b := Success (Some 200%N) (Some "OK") (JObj [("key", JStr "B")]) in
  promise_of (aggregate Signed.countOutcome 1 [x; x; y; y]) = outcome_promise x
  ∧ promise_of (aggregate Signed.countOutcome 1 [y; y; x; x]) = outcome_promise y
  ∧ Signed.ResponseKey a = Signed.ResponseKey b
  ∧ promise_of (aggregate Signed.countOutcome 1 [a; b]) = outcome_promise b
  ∧ promise_of (aggregate Signed.countOutcome 1 [b; a]) = outcome_promise a
  ∧ outcome_promise a ≠ outcome_promise b.
Proof. split_and!; try reflexivity. discriminate. Qed.

(** An answer that is there before the timer fires is the one delivered,
    whatever its status. *)
Example answer_in_time :
  ∀ elapsed response, (elapsed < 7000)%N → race (Answers elapsed response) = response.
Proof. intros elapsed response Hearly. simpl. by rewrite bool_decide_eq_true_2. Qed.
